(** * Spectrum Shuffle: the game simulator and its statistics

    A shallow embedding of [spectrum_shuffle.py].  Python integers are [Z],
    cards are strings, lists are lists, the [defaultdict] of win counts is a
    finite map.  The built-in exceptions the program can raise are a result
    of the computation, and the [while True] loop of [play_game] runs on
    fuel; the theorems bound the fuel it needs. *)

From Stdlib Require Import ZArith Lia QArith Qcanon.
From stdpp Require Import base tactics option list gmap strings numbers.

Local Open Scope string_scope.
Local Open Scope list_scope.
Local Open Scope Z_scope.

(** ** Results of a computation *)

Inductive exn : Set :=
  | ZeroDivisionError
  | IndexError
  | ValueError.

Inductive outcome (A : Type) : Type :=
  | Return (a : A)
  | Raise (e : exn)
  | OutOfFuel.

Arguments Return {A} a.
Arguments Raise {A} e.
Arguments OutOfFuel {A}.

#[global] Instance outcome_ret : MRet outcome := λ A a, Return a.

#[global] Instance outcome_bind : MBind outcome := λ A B f m,
  match m with
  | Return a => f a
  | Raise e => Raise e
  | OutOfFuel => OutOfFuel
  end.

#[global] Instance exn_eq_dec : EqDecision exn.
Proof. solve_decision. Defined.

(** ** The Python operations the program uses *)

Module Py.

(** [a % b]: the sign follows the divisor, as [Z.modulo] does. *)
Definition mod_ (a b : Z) : outcome Z :=
  if decide (b = 0) then Raise ZeroDivisionError else Return (a `mod` b).

(** The position a subscript [i] denotes in a list of length [n]:
    a negative [i] counts from the end. *)
Definition norm_index (n : nat) (i : Z) : option nat :=
  let j := if decide (i < 0) then i + Z.of_nat n else i in
  if decide (0 ≤ j < Z.of_nat n) then Some (Z.to_nat j) else None.

(** [l[i]] *)
Definition getitem {A} (l : list A) (i : Z) : outcome A :=
  match norm_index (length l) i with
  | Some j => match l !! j with Some x => Return x | None => Raise IndexError end
  | None => Raise IndexError
  end.

(** [l[i] = x] *)
Definition setitem {A} (l : list A) (i : Z) (x : A) : outcome (list A) :=
  match norm_index (length l) i with
  | Some j => Return (<[j:=x]> l)
  | None => Raise IndexError
  end.

(** [l.index(x)] *)
Definition index (l : list string) (x : string) : outcome Z :=
  match list_find (λ y, y = x) l with
  | Some (i, _) => Return (Z.of_nat i)
  | None => Raise ValueError
  end.

(** [[x] * n]: empty when [n] is not positive. *)
Definition repeat {A} (x : A) (n : Z) : list A := replicate (Z.to_nat n) x.

(** [sum(l)] *)
Definition sum (l : list Z) : Z := foldl Z.add 0 l.

(** [min(l)] and [max(l)] *)
Definition min (l : list Z) : outcome Z :=
  match l with
  | [] => Raise ValueError
  | x :: l' => Return (foldl Z.min x l')
  end.

Definition max (l : list Z) : outcome Z :=
  match l with
  | [] => Raise ValueError
  | x :: l' => Return (foldl Z.max x l')
  end.

(** [a / b] on integers.  The program gets the double nearest to the
    quotient; the model keeps the quotient itself. *)
Definition truediv (a b : Z) : outcome Qc :=
  if decide (b = 0) then Raise ZeroDivisionError
  else Return (Qc_of_Z a / Qc_of_Z b)%Qc.

End Py.

(** ** Game configuration *)

Definition COLORS : list string :=
  ["Red"; "Orange"; "Yellow"; "Green"; "Blue"; "Violet"].

Definition BOARD_SIZE : Z := Z.of_nat (length COLORS).

(** ** Core game logic *)

Record GameResult : Set := mkResult { winner : Z; turns : Z }.

#[global] Instance GameResult_eq_dec : EqDecision GameResult.
Proof. solve_decision. Defined.

Section Game.

(** [random.shuffle] is the standard library's: the state of the random
    source and the shuffle are parameters of the game. *)
Context {RNG : Type}.
Variable shuffle : list string → RNG → list string * RNG.

Definition create_deck (g : RNG) : list string * RNG :=
  let deck := COLORS ++ COLORS in
  shuffle deck g.

(** The local variables of [play_game]. *)
Record state : Type := mkState {
  positions : list Z;
  deck : list string;
  deck_index : Z;
  turn : Z;
  rng : RNG
}.

(** What one pass through the loop body leads to; [Done] keeps the locals
    as they are at the [return]. *)
Inductive step_result : Type :=
  | Continue (s : state)
  | Done (r : GameResult) (s : state).

Definition after (r : step_result) : state :=
  match r with Continue s => s | Done _ s => s end.

(** Replenish deck when exhausted. *)
Definition replenish (s : state) : state :=
  if deck_index s >=? Z.of_nat (length (deck s)) then
    let '(d, g) := create_deck (rng s) in
    mkState (positions s) d 0 (turn s) g
  else s.

(** The body of the [while True] loop. *)
Definition turn_step (num_players : Z) (s : state) : outcome step_result :=
  current_player ← Py.mod_ (turn s) num_players;
  let s := replenish s in
  card ← Py.getitem (deck s) (deck_index s);
  let deck_index := deck_index s + 1 in
  color_index ← Py.index COLORS card;
  p ← Py.getitem (positions s) current_player;
  positions ←
    (if color_index >? p
     then Py.setitem (positions s) current_player color_index
     else Py.setitem (positions s) current_player (color_index + BOARD_SIZE));
  p' ← Py.getitem positions current_player;
  if p' >=? BOARD_SIZE - 1
  then Return (Done (mkResult current_player (turn s + 1))
                    (mkState positions (deck s) deck_index (turn s) (rng s)))
  else Return (Continue (mkState positions (deck s) deck_index (turn s + 1) (rng s))).

Fixpoint play_loop (fuel : nat) (num_players : Z) (s : state)
  : outcome (GameResult * RNG) :=
  match fuel with
  | O => OutOfFuel
  | S fuel' =>
      r ← turn_step num_players s;
      match r with
      | Done res s' => Return (res, rng s')
      | Continue s' => play_loop fuel' num_players s'
      end
  end.

Definition init_state (num_players : Z) (g : RNG) : state :=
  let positions := Py.repeat 0 num_players in
  let '(deck, g') := create_deck g in
  mkState positions deck 0 0 g'.

Definition play_game (fuel : nat) (num_players : Z) (g : RNG)
  : outcome (GameResult * RNG) :=
  play_loop fuel num_players (init_state num_players g).

(** The states the loop of [play_game] passes through, each at the top of
    the loop body. *)
Inductive reachable (num_players : Z) (g : RNG) : state → Prop :=
  | reachable_init : reachable num_players g (init_state num_players g)
  | reachable_step s s' :
      reachable num_players g s →
      turn_step num_players s = Return (Continue s') →
      reachable num_players g s'.

(** ** Simulation and statistics *)

Record SimulationStats : Type := mkStats {
  wins_per_player : gmap Z Z;
  avg_turns : Qc;
  min_turns : Z;
  max_turns : Z
}.

(** The [for _ in range(num_simulations)] loop, [n] passes to go. *)
Fixpoint simulate (fuel : nat) (n : nat) (num_players : Z)
    (wins : gmap Z Z) (all_turns : list Z) (g : RNG)
  : outcome (gmap Z Z * list Z * RNG) :=
  match n with
  | O => Return (wins, all_turns, g)
  | S n' =>
      '(result, g') ← play_game fuel num_players g;
      let wins := <[winner result := default 0 (wins !! winner result) + 1]> wins in
      let all_turns := all_turns ++ [turns result] in
      simulate fuel n' num_players wins all_turns g'
  end.

Definition run_simulations (fuel : nat) (num_simulations num_players : Z) (g : RNG)
  : outcome (SimulationStats * RNG) :=
  '(wins, all_turns, g') ←
    simulate fuel (Z.to_nat num_simulations) num_players ∅ [] g;
  avg ← Py.truediv (Py.sum all_turns) (Z.of_nat (length all_turns));
  lo ← Py.min all_turns;
  hi ← Py.max all_turns;
  Return (mkStats wins avg lo hi, g').

End Game.

Arguments Continue {RNG} s.
Arguments Done {RNG} r s.

(** ** Reporting *)

(** What [print] writes, one entry for each call.  The text of an f-string
    is kept; a formatted field is kept as its value, with the digits of a
    [.nf] field, and is not rendered: [IntLine l v] is [f"{l}{v}"],
    [FixedLine l n v] is [f"{l}{v:.nf}"], and [PlayerLine k w r] is
    [f"    Player {k}: {w:>6} wins  ({r:.1f} %)"]. *)
Inductive line : Type :=
  | Text (s : string)
  | IntLine (label : string) (v : Z)
  | FixedLine (label : string) (digits : nat) (v : Qc)
  | PlayerLine (number : Z) (wins : Z) (rate : Qc).

Definition newline : string := String (Ascii.ascii_of_nat 10) "".

(** ['=' * 40] *)
Definition rule : string := String.concat "" (replicate 40 "=").

(** The lines written before the loop over the players. *)
Definition heading (stats : SimulationStats) (num_simulations num_players : Z)
  : list line :=
  [ Text (newline +:+ rule);
    Text "  Spectrum Shuffle – Simulation Results";
    Text rule;
    IntLine "  Simulations : " num_simulations;
    IntLine "  Players     : " num_players;
    FixedLine "  Avg turns   : " 2 (avg_turns stats);
    IntLine "  Min turns   : " (min_turns stats);
    IntLine "  Max turns   : " (max_turns stats);
    Text (newline +:+ "  Win rates:") ].

(** The [for player in range(num_players)] loop, on the players still to
    come and the lines written so far.  The lines written stay written when
    a pass raises. *)
Fixpoint print_rows (stats : SimulationStats) (num_simulations : Z)
    (players : list Z) (out : list line) : list line * outcome unit :=
  match players with
  | [] => (out, Return ())
  | player :: players' =>
      let wins := default 0 (wins_per_player stats !! player) in
      match Py.truediv wins num_simulations with
      | Return q =>
          let rate := (q * Qc_of_Z 100)%Qc in
          print_rows stats num_simulations players'
                     (out ++ [PlayerLine (player + 1) wins rate])
      | Raise e => (out, Raise e)
      | OutOfFuel => (out, OutOfFuel)
      end
  end.

Definition print_statistics (stats : SimulationStats) (num_simulations num_players : Z)
  : list line * outcome unit :=
  let out := heading stats num_simulations num_players in
  match print_rows stats num_simulations (seqZ 0 num_players) out with
  | (out, Return _) => (out ++ [Text (rule +:+ newline)], Return ())
  | (out, Raise e) => (out, Raise e)
  | (out, OutOfFuel) => (out, OutOfFuel)
  end.

(** ** Entry point *)

Definition NUM_SIMULATIONS : Z := 1000.
Definition NUM_PLAYERS : Z := 2.

Definition main {RNG} (shuffle : list string → RNG → list string * RNG)
    (fuel : nat) (g : RNG) : list line * outcome unit :=
  match run_simulations shuffle fuel NUM_SIMULATIONS NUM_PLAYERS g with
  | Return (stats, _) => print_statistics stats NUM_SIMULATIONS NUM_PLAYERS
  | Raise e => ([], Raise e)
  | OutOfFuel => ([], OutOfFuel)
  end.

(** ** Vocabulary of the properties *)

(** The value lines 58 to 61 store for color index [c] and a player
    standing on [p]. *)
Definition landing (c p : Z) : Z :=
  if c >? p then c else c + BOARD_SIZE.

(** What is known of a shuffle: it rearranges the list it is given.  A
    rigged one may only keep its length. *)
Definition shuffle_permutes {RNG} (shuffle : list string → RNG → list string * RNG) : Prop :=
  ∀ x g, (shuffle x g).1 ≡ₚ x.

Definition shuffle_keeps_length {RNG} (shuffle : list string → RNG → list string * RNG) : Prop :=
  ∀ x g, length (shuffle x g).1 = length x.

(** What holds of the board at the top of every pass: one position per
    player, each on a space before the last, and no more turns played than
    the spaces advanced. *)
Definition board_inv {RNG} (num_players : Z) (s : @state RNG) : Prop :=
  length (positions s) = Z.to_nat num_players ∧
  Forall (λ p, 0 ≤ p ≤ 4) (positions s) ∧
  0 ≤ turn s ≤ Py.sum (positions s).

(** What holds of the deck at the top of every pass: twelve cards, and a
    cursor on one of them or just past the last. *)
Definition deck_inv {RNG} (s : @state RNG) : Prop :=
  length (deck s) = 12%nat ∧ 0 ≤ deck_index s ≤ 12.

(** While the first deck lasts the cursor counts the turns. *)
Definition cursor_inv {RNG} (s : @state RNG) : Prop :=
  0 ≤ turn s ∧ (turn s ≤ 12 → deck_index s = turn s).

(** The cards that can be drawn without ending the game. *)
Definition inner (card : string) : Prop := card ≠ "Red" ∧ card ≠ "Violet".

#[global] Instance inner_dec card : Decision (inner card).
Proof. unfold inner. apply _. Defined.

(** The arithmetic mean of a list of integers, as a rational. *)
Definition mean (l : list Z) : Qc :=
  (Qc_of_Z (foldr Z.add 0%Z l) / Qc_of_Z (Z.of_nat (length l)))%Qc.

(** While every card drawn so far was an inner one, the game is still on
    its first deck. *)
Definition first_deck_inv {RNG} (s : @state RNG) : Prop :=
  0 ≤ turn s ∧ deck_index s = turn s ∧
  Forall inner (take (Z.to_nat (turn s)) (deck s)).

(** The games of a batch, one after the other on the same random source. *)
Fixpoint play_games {RNG} (shuffle : list string → RNG → list string * RNG)
    (fuel : nat) (n : nat) (num_players : Z) (g : RNG)
  : outcome (list GameResult * RNG) :=
  match n with
  | O => Return ([], g)
  | S n' =>
      '(r, g1) ← play_game shuffle fuel num_players g;
      '(rs, g2) ← play_games shuffle fuel n' num_players g1;
      Return (r :: rs, g2)
  end.

(** [wins_per_player[result["winner"]] += 1] on a [defaultdict(int)]. *)
Definition tally (wins : gmap Z Z) (r : GameResult) : gmap Z Z :=
  <[winner r := default 0 (wins !! winner r) + 1]> wins.

(** The sum of the values of a map of win counts. *)
Definition total (wins : gmap Z Z) : Z := map_fold (λ _ v acc, v + acc) 0 wins.

(** The number of games of [rs] that player [w] won. *)
Definition wins_of (w : Z) (rs : list GameResult) : nat :=
  length (filter (λ r, winner r = w) rs).

(** The win count and the rate a line shows, zero for the other lines. *)
Definition line_wins (l : line) : Z :=
  match l with PlayerLine _ w _ => w | _ => 0 end.

Definition line_rate (l : line) : Qc :=
  match l with PlayerLine _ _ r => r | _ => Q2Qc 0 end.

(** The line of one player: [wins_per_player.get(player, 0)] and its share
    of the simulations, in percent. *)
Definition player_line (stats : SimulationStats) (num_simulations : Z) (player : Z)
  : line :=
  let wins := default 0 (wins_per_player stats !! player) in
  PlayerLine (player + 1) wins
             (Qc_of_Z wins / Qc_of_Z num_simulations * Qc_of_Z 100)%Qc.

(** The random source after [n] decks were made. *)
Definition decks_drawn {RNG} (shuffle : list string → RNG → list string * RNG)
    (n : nat) (g : RNG) : RNG :=
  Nat.iter n (λ g, (create_deck shuffle g).2) g.

(** How many times [x] occurs in [l]. *)
Definition count {A} `{EqDecision A} (x : A) (l : list A) : nat :=
  length (filter (λ y, y = x) l).

(** ** Shuffles *)

(** The shape of [random.shuffle]: Fisher and Yates' exchange loop,
    [for i in reversed(range(1, len(x))): j = randbelow(i + 1);
    x[i], x[j] = x[j], x[i]], reading its draws from a tape.  A tape that
    runs out keeps giving zero. *)
Module Random.

Definition tape : Type := list nat.

Definition randbelow (n : nat) (g : tape) : nat * tape :=
  match g with
  | [] => (0%nat, [])
  | r :: g' => ((r `mod` n)%nat, g')
  end.

(** [x[i], x[j] = x[j], x[i]] *)
Definition exchange {A} (x : list A) (i j : nat) : list A :=
  match x !! j, x !! i with
  | Some xj, Some xi => <[j:=xi]> (<[i:=xj]> x)
  | _, _ => x
  end.

Fixpoint shuffle_from {A} (i : nat) (x : list A) (g : tape) : list A * tape :=
  match i with
  | O => (x, g)
  | S i' =>
      let '(j, g') := randbelow (i + 1) g in
      shuffle_from i' (exchange x i j) g'
  end.

Definition shuffle {A} (x : list A) (g : tape) : list A * tape :=
  shuffle_from (length x - 1) x g.

End Random.

(** A rigged shuffle, in place as the real one: it lays the next stacked
    cards over the front of the list, which keeps its length, and leaves
    the list as it is once the stack is used up. *)
Module Rigged.

Definition shuffle (x : list string) (g : list (list string))
  : list string * list (list string) :=
  match g with
  | [] => (x, [])
  | d :: g' => (take (length x) (d ++ x), g')
  end.

End Rigged.

(** ** Sample games *)

(** A tape of draws for the real shuffle. *)
Definition sample_tape : Random.tape := [3; 7; 1; 0; 5; 2; 9; 4; 4; 1; 0]%nat.

(** A stack whose first deck starts with Green and Yellow, and the game of
    one player on it: the start, the top of the second pass, and what the
    second pass returns. *)
Definition green_yellow_stack : list (list string) := [["Green"; "Yellow"]].

Definition green_yellow_start : @state (list (list string)) :=
  init_state Rigged.shuffle 1 green_yellow_stack.

Definition green_yellow_second : @state (list (list string)) :=
  mkState [3] (deck green_yellow_start) 1 1 [].

Definition green_yellow_end : @step_result (list (list string)) :=
  Done (mkResult 0 2) (mkState [8] (deck green_yellow_start) 2 1 []).

(** A stack on which three players use up the first deck: four rounds of
    inner cards, each one space further. *)
Definition long_stack : list (list string) :=
  [["Orange"; "Orange"; "Orange"; "Yellow"; "Yellow"; "Yellow";
    "Green"; "Green"; "Green"; "Blue"; "Blue"; "Blue"]].

(** Statistics of three games in which player 2 did not win. *)
Definition sample_stats : SimulationStats :=
  mkStats {[0 := 3]} (Qc_of_Z 2) 1 3.

(** * Properties *)

(** ** The Python operations *)

Section PyFacts.

Context {A : Type}.
Implicit Types (l : list A) (i : Z) (x : A).

Lemma norm_index_lt n i j : Py.norm_index n i = Some j → (j < n)%nat.
Proof.
  unfold Py.norm_index. repeat case_decide; intros; simplify_eq; lia.
Qed.

Lemma norm_index_nonneg n i :
  0 ≤ i < Z.of_nat n → Py.norm_index n i = Some (Z.to_nat i).
Proof.
  intros. unfold Py.norm_index. repeat case_decide; try lia. done.
Qed.

Lemma getitem_Return l i x :
  Py.getitem l i = Return x ↔
  ∃ j, Py.norm_index (length l) i = Some j ∧ l !! j = Some x.
Proof.
  unfold Py.getitem. split.
  - destruct (Py.norm_index _ _) as [j|]; [|done].
    destruct (l !! j) eqn:E; [|done]. intros [= ->]. eauto.
  - intros (j & -> & ->). done.
Qed.

Lemma getitem_nonneg l i x :
  0 ≤ i → Py.getitem l i = Return x ↔ l !! Z.to_nat i = Some x.
Proof.
  intros Hi. rewrite getitem_Return. split.
  - intros (j & Hj & Hx). unfold Py.norm_index in Hj.
    repeat case_decide; simplify_eq; try lia. done.
  - intros Hx. exists (Z.to_nat i). split; [|done].
    apply norm_index_nonneg. apply lookup_lt_Some in Hx. lia.
Qed.

Lemma getitem_in_range l i :
  0 ≤ i < Z.of_nat (length l) → ∃ x, Py.getitem l i = Return x.
Proof.
  intros Hi. destruct (lookup_lt_is_Some_2 l (Z.to_nat i)) as [x Hx]; [lia|].
  exists x. apply getitem_nonneg; [lia|done].
Qed.

Lemma setitem_Return l i x l' :
  Py.setitem l i x = Return l' ↔
  ∃ j, Py.norm_index (length l) i = Some j ∧ l' = <[j:=x]> l.
Proof.
  unfold Py.setitem. split.
  - destruct (Py.norm_index _ _) as [j|]; [|done]. intros [= <-]. eauto.
  - intros (j & -> & ->). done.
Qed.

Lemma getitem_setitem l i x l' :
  Py.setitem l i x = Return l' → Py.getitem l' i = Return x.
Proof.
  rewrite setitem_Return, getitem_Return. intros (j & Hj & ->).
  exists j. rewrite length_insert. split; [done|].
  apply list_lookup_insert_eq. by eapply norm_index_lt.
Qed.

End PyFacts.

Lemma mod_Return a b c : Py.mod_ a b = Return c ↔ b ≠ 0 ∧ c = a `mod` b.
Proof.
  unfold Py.mod_. case_decide; split.
  - done.
  - by intros [? _].
  - by intros [= <-].
  - by intros [_ ->].
Qed.

Lemma index_Return l x c :
  Py.index l x = Return c ↔
  0 ≤ c ∧ l !! Z.to_nat c = Some x ∧ ∀ j y, l !! j = Some y → (j < Z.to_nat c)%nat → y ≠ x.
Proof.
  unfold Py.index. split.
  - destruct (list_find _ l) as [[i y]|] eqn:E; [|done].
    intros [= <-]. apply list_find_Some in E as (Hi & -> & Hlt).
    rewrite Nat2Z.id. split; [lia|]. split; [done|]. intros j z Hj Hjlt. eauto.
  - intros (Hc & Hx & Hfirst).
    assert (list_find (λ y, y = x) l = Some (Z.to_nat c, x)) as ->.
    { apply list_find_Some. split; [done|]. split; [done|]. eauto. }
    f_equal. lia.
Qed.

Lemma index_COLORS card c :
  Py.index COLORS card = Return c → 0 ≤ c ≤ 5 ∧ card ∈ COLORS.
Proof.
  rewrite index_Return. intros (Hc & Hx & _). split.
  - apply lookup_lt_Some in Hx. simpl in Hx. lia.
  - by eapply list_elem_of_lookup_2.
Qed.

Lemma index_COLORS_elem card :
  card ∈ COLORS → ∃ c, Py.index COLORS card = Return c.
Proof.
  intros H. unfold Py.index.
  destruct (list_find_elem_of (λ y, y = card) COLORS card H eq_refl) as [[i y] ->].
  eauto.
Qed.

(** ** One pass through the loop body *)

Section Step.

Context {RNG : Type}.
Variable shuffle : list string → RNG → list string * RNG.

Implicit Types (s : @state RNG) (r : @step_result RNG) (n : Z).

Lemma replenish_positions s : positions (replenish shuffle s) = positions s.
Proof.
  unfold replenish. destruct (_ >=? _); [|done]. by destruct (create_deck _ _).
Qed.

Lemma replenish_turn s : turn (replenish shuffle s) = turn s.
Proof.
  unfold replenish. destruct (_ >=? _); [|done]. by destruct (create_deck _ _).
Qed.

Lemma replenish_exhausted s :
  Z.of_nat (length (deck s)) ≤ deck_index s →
  replenish shuffle s =
    mkState (positions s) (create_deck shuffle (rng s)).1 0 (turn s)
            (create_deck shuffle (rng s)).2.
Proof.
  intros H. unfold replenish. destruct (Z.geb_spec (deck_index s) (Z.of_nat (length (deck s)))); [|lia].
  by destruct (create_deck _ _).
Qed.

Lemma replenish_stocked s :
  deck_index s < Z.of_nat (length (deck s)) → replenish shuffle s = s.
Proof.
  intros H. unfold replenish. destruct (Z.geb_spec (deck_index s) (Z.of_nat (length (deck s)))); [lia|done].
Qed.

(** What a pass that raises nothing has done. *)
Lemma turn_step_Return n s r :
  turn_step shuffle n s = Return r ↔
  ∃ card c p ps,
    n ≠ 0 ∧
    Py.getitem (deck (replenish shuffle s)) (deck_index (replenish shuffle s)) = Return card ∧
    Py.index COLORS card = Return c ∧
    Py.getitem (positions s) (turn s `mod` n) = Return p ∧
    Py.setitem (positions s) (turn s `mod` n) (landing c p) = Return ps ∧
    r = (let s1 := replenish shuffle s in
         if landing c p >=? BOARD_SIZE - 1
         then Done (mkResult (turn s `mod` n) (turn s + 1))
                   (mkState ps (deck s1) (deck_index s1 + 1) (turn s) (rng s1))
         else Continue (mkState ps (deck s1) (deck_index s1 + 1) (turn s + 1) (rng s1))).
Proof.
  unfold turn_step, landing. split.
  - destruct (Py.mod_ (turn s) n) as [cp| |] eqn:Hcp; [|done..].
    apply mod_Return in Hcp as [Hn ->]. cbn.
    destruct (Py.getitem (deck _) _) as [card| |] eqn:Hcard; [|done..]. cbn.
    destruct (Py.index COLORS card) as [c| |] eqn:Hc; [|done..]. cbn.
    rewrite replenish_positions, replenish_turn.
    destruct (Py.getitem (positions s) _) as [p| |] eqn:Hp; [|done..]. cbn.
    destruct (c >? p) eqn:Hgt; cbn.
    + destruct (Py.setitem _ _ c) as [ps| |] eqn:Hps; [|done..]. cbn.
      rewrite (getitem_setitem _ _ _ _ Hps). cbn.
      intros Hr. exists card, c, p, ps. rewrite Hgt.
      repeat (split; [done|]). cbn. destruct (c >=? _); congruence.
    + destruct (Py.setitem _ _ (c + _)) as [ps| |] eqn:Hps; [|done..]. cbn.
      rewrite (getitem_setitem _ _ _ _ Hps). cbn.
      intros Hr. exists card, c, p, ps. rewrite Hgt.
      repeat (split; [done|]). cbn. destruct (c + _ >=? _); congruence.
  - intros (card & c & p & ps & Hn & Hcard & Hc & Hp & Hps & ->).
    assert (Py.mod_ (turn s) n = Return (turn s `mod` n)) as ->
      by by apply mod_Return.
    cbn. rewrite Hcard. cbn. rewrite Hc. cbn.
    rewrite replenish_positions, replenish_turn, Hp. cbn.
    destruct (c >? p) eqn:Hgt; rewrite Hps; cbn;
      rewrite (getitem_setitem _ _ _ _ Hps); cbn; by destruct (_ >=? _).
Qed.

Lemma turn_step_Continue n s s' :
  turn_step shuffle n s = Return (Continue s') ↔
  ∃ card c p ps,
    n ≠ 0 ∧
    Py.getitem (deck (replenish shuffle s)) (deck_index (replenish shuffle s)) = Return card ∧
    Py.index COLORS card = Return c ∧
    Py.getitem (positions s) (turn s `mod` n) = Return p ∧
    Py.setitem (positions s) (turn s `mod` n) (landing c p) = Return ps ∧
    landing c p < BOARD_SIZE - 1 ∧
    s' = mkState ps (deck (replenish shuffle s)) (deck_index (replenish shuffle s) + 1)
                 (turn s + 1) (rng (replenish shuffle s)).
Proof.
  rewrite turn_step_Return. split.
  - intros (card & c & p & ps & Hn & Hcard & Hc & Hp & Hps & Hr).
    exists card, c, p, ps. do 5 (split; [done|]). cbv zeta in Hr.
    destruct (Z.geb_spec (landing c p) (BOARD_SIZE - 1)); [done|].
    split; [lia|congruence].
  - intros (card & c & p & ps & Hn & Hcard & Hc & Hp & Hps & Hlt & ->).
    exists card, c, p, ps. do 5 (split; [done|]). cbv zeta.
    destruct (Z.geb_spec (landing c p) (BOARD_SIZE - 1)); [lia|done].
Qed.

Lemma turn_step_Done n s res sf :
  turn_step shuffle n s = Return (Done res sf) ↔
  ∃ card c p ps,
    n ≠ 0 ∧
    Py.getitem (deck (replenish shuffle s)) (deck_index (replenish shuffle s)) = Return card ∧
    Py.index COLORS card = Return c ∧
    Py.getitem (positions s) (turn s `mod` n) = Return p ∧
    Py.setitem (positions s) (turn s `mod` n) (landing c p) = Return ps ∧
    BOARD_SIZE - 1 ≤ landing c p ∧
    res = mkResult (turn s `mod` n) (turn s + 1) ∧
    sf = mkState ps (deck (replenish shuffle s)) (deck_index (replenish shuffle s) + 1)
                 (turn s) (rng (replenish shuffle s)).
Proof.
  rewrite turn_step_Return. split.
  - intros (card & c & p & ps & Hn & Hcard & Hc & Hp & Hps & Hr).
    exists card, c, p, ps. do 5 (split; [done|]). cbv zeta in Hr.
    destruct (Z.geb_spec (landing c p) (BOARD_SIZE - 1)); [|done].
    split; [lia|]. split; congruence.
  - intros (card & c & p & ps & Hn & Hcard & Hc & Hp & Hps & Hlt & -> & ->).
    exists card, c, p, ps. do 5 (split; [done|]). cbv zeta.
    destruct (Z.geb_spec (landing c p) (BOARD_SIZE - 1)); [done|lia].
Qed.

(** C1: a pass that draws a card of color index [c] for the player whose
    turn it is, standing on [p], stores [c] as that player's position when
    [c > p] and [c + BOARD_SIZE], that is [c + 6], when [c <= p]; no other
    position changes. *)
Theorem move_rule n s r :
  turn_step shuffle n s = Return r →
  ∃ card c p,
    Py.getitem (deck (replenish shuffle s)) (deck_index (replenish shuffle s)) = Return card ∧
    Py.index COLORS card = Return c ∧
    Py.getitem (positions s) (turn s `mod` n) = Return p ∧
    (c > p → Py.getitem (positions (after r)) (turn s `mod` n) = Return c) ∧
    (c ≤ p → Py.getitem (positions (after r)) (turn s `mod` n) = Return (c + BOARD_SIZE)) ∧
    BOARD_SIZE = 6 ∧
    Py.setitem (positions s) (turn s `mod` n) (if decide (c > p) then c else c + 6)
      = Return (positions (after r)).
Proof.
  intros (card & c & p & ps & Hn & Hcard & Hc & Hp & Hps & ->)%turn_step_Return.
  exists card, c, p. do 3 (split; [done|]).
  assert (positions (after
    (if landing c p >=? BOARD_SIZE - 1
     then Done (mkResult (turn s `mod` n) (turn s + 1))
            (mkState ps (deck (replenish shuffle s))
               (deck_index (replenish shuffle s) + 1) (turn s) (rng (replenish shuffle s)))
     else Continue
            (mkState ps (deck (replenish shuffle s))
               (deck_index (replenish shuffle s) + 1) (turn s + 1)
               (rng (replenish shuffle s))))) = ps) as Hafter
    by by destruct (_ >=? _).
  cbv zeta. rewrite Hafter. apply getitem_setitem in Hps as Hget.
  unfold landing in *. destruct (Z.gtb_spec c p).
  - split; [done|]. split; [lia|]. split; [done|].
    rewrite <- Hps. case_decide; [done|lia].
  - split; [lia|]. split; [done|]. split; [done|].
    rewrite <- Hps. case_decide; [lia|done].
Qed.

(** C2: when the position the moving player has after the move is at
    least [BOARD_SIZE - 1], that is 5, the pass returns, and so does the
    game at once, with the moving player as [winner] and the turn counter
    plus one as [turns]. *)
Theorem win_check n s r p' :
  turn_step shuffle n s = Return r →
  Py.getitem (positions (after r)) (turn s `mod` n) = Return p' →
  p' >= BOARD_SIZE - 1 →
  BOARD_SIZE - 1 = 5 ∧
  r = Done (mkResult (turn s `mod` n) (turn s + 1)) (after r) ∧
  ∀ fuel, play_loop shuffle (S fuel) n s
          = Return (mkResult (turn s `mod` n) (turn s + 1), rng (after r)).
Proof.
  intros Hstep Hp' Hwin. split; [done|].
  assert (r = Done (mkResult (turn s `mod` n) (turn s + 1)) (after r)) as Hr.
  { apply turn_step_Return in Hstep
      as (card & c & p & ps & Hn & Hcard & Hc & Hp & Hps & ->).
    cbv zeta in *. destruct (Z.geb_spec (landing c p) (BOARD_SIZE - 1)); [done|].
    cbn in Hp'. rewrite (getitem_setitem _ _ _ _ Hps) in Hp'.
    injection Hp' as <-. lia. }
  split; [done|]. intros fuel. cbn. rewrite Hstep. cbn. by rewrite Hr.
Qed.

End Step.

(** ** Sums *)

Lemma sum_acc a l : foldl Z.add a l = a + Py.sum l.
Proof.
  unfold Py.sum. revert a. induction l as [|x l IH]; intros a; cbn; [lia|].
  rewrite (IH (a + x)), (IH (0 + x)). lia.
Qed.

Lemma sum_cons x l : Py.sum (x :: l) = x + Py.sum l.
Proof. unfold Py.sum at 1. cbn. apply sum_acc. Qed.

Lemma sum_foldr l : Py.sum l = foldr Z.add 0 l.
Proof. induction l as [|x l IH]; [done|]. rewrite sum_cons, IH. done. Qed.

Lemma sum_insert l j p c :
  l !! j = Some p → Py.sum (<[j:=c]> l) = Py.sum l - p + c.
Proof.
  revert j. induction l as [|x l IH]; intros [|j] H; simplify_eq/=.
  - rewrite !sum_cons. lia.
  - rewrite !sum_cons, (IH j H). lia.
Qed.

Lemma sum_replicate_0 n : Py.sum (replicate n 0) = 0.
Proof. induction n as [|n IH]; [done|]. by rewrite replicate_S, sum_cons, IH. Qed.

Lemma sum_le_bound b l :
  Forall (λ p, p ≤ b) l → Py.sum l ≤ b * Z.of_nat (length l).
Proof.
  induction 1 as [|x l Hx _ IH]; [cbn; lia|]. rewrite sum_cons. cbn [length]. lia.
Qed.

(** ** The board at the top of every pass *)

Section Board.

Context {RNG : Type}.
Variable shuffle : list string → RNG → list string * RNG.

Implicit Types (s : @state RNG) (r : @step_result RNG) (n : Z) (g : RNG).

Lemma landing_cases c p :
  0 ≤ c →
  (p < c ∧ landing c p = c) ∨ (c ≤ p ∧ landing c p = c + 6 ∧ 6 ≤ landing c p).
Proof.
  intros Hc. unfold landing. destruct (Z.gtb_spec c p); [left|right].
  - done.
  - change BOARD_SIZE with 6. lia.
Qed.

Lemma init_board_inv n g : board_inv n (init_state shuffle n g).
Proof.
  unfold init_state, board_inv. destruct (create_deck _ _) as [d g']. cbn.
  unfold Py.repeat. rewrite length_replicate, sum_replicate_0.
  split; [done|]. split; [|lia].
  apply Forall_replicate. lia.
Qed.

Lemma step_board_inv n s s' :
  board_inv n s → turn_step shuffle n s = Return (Continue s') → board_inv n s'.
Proof.
  intros (Hlen & Hpos & Hturn).
  intros (card & c & p & ps & Hn & Hcard & Hc & Hp & Hps & Hlt & ->)%turn_step_Continue.
  apply index_COLORS in Hc as [Hc _].
  change BOARD_SIZE with 6 in Hlt.
  destruct (landing_cases c p) as [[Hpc Hl]|(_ & _ & ?)]; [lia| |lia].
  rewrite Hl in *.
  apply getitem_Return in Hp as (j & Hj & Hp).
  apply setitem_Return in Hps as (j' & Hj' & ->). simplify_eq.
  unfold board_inv. cbn. rewrite length_insert. split; [done|].
  pose proof (Forall_lookup_1 _ _ _ _ Hpos Hp) as Hp4. cbn in Hp4.
  split.
  - apply Forall_insert; [done|lia].
  - rewrite (sum_insert _ _ _ _ Hp). lia.
Qed.

Lemma reachable_board_inv n g s : reachable shuffle n g s → board_inv n s.
Proof.
  induction 1 as [|s s' _ IH Hstep]; [apply init_board_inv|].
  by eapply step_board_inv.
Qed.

(** C6: at every pass of a game, the position the move stores for the
    moving player is strictly greater than the position the player had,
    which was at most 4. *)
Theorem position_increases n g s r p p' :
  reachable shuffle n g s →
  turn_step shuffle n s = Return r →
  Py.getitem (positions s) (turn s `mod` n) = Return p →
  Py.getitem (positions (after r)) (turn s `mod` n) = Return p' →
  p ≤ 4 ∧ p < p'.
Proof.
  intros (Hlen & Hpos & Hturn)%reachable_board_inv Hstep Hp Hp'.
  apply turn_step_Return in Hstep
    as (card & c & p0 & ps & Hn & Hcard & Hc & Hp0 & Hps & ->).
  rewrite Hp in Hp0. injection Hp0 as <-.
  assert (Py.getitem ps (turn s `mod` n) = Return p') as Hget.
  { cbv zeta in Hp'. by destruct (_ >=? _). }
  rewrite (getitem_setitem _ _ _ _ Hps) in Hget. injection Hget as <-.
  apply getitem_Return in Hp as (j & Hj & Hp).
  pose proof (Forall_lookup_1 _ _ _ _ Hpos Hp) as Hp4. cbn in Hp4.
  apply index_COLORS in Hc as [Hc _]. split; [lia|].
  destruct (landing_cases c p) as [[? ->]|(_ & _ & ?)]; lia.
Qed.

(** C10: at every pass of a game no position is 5 or more, and a draw
    whose color index [c] is at most the moving player's position [p]
    stores [c + 6], which is at least 6 and so meets the threshold
    [BOARD_SIZE - 1 = 5]: the pass returns and the game ends on that draw
    with the moving player as winner. *)
Theorem wrap_wins n g s :
  reachable shuffle n g s →
  Forall (λ p, p < BOARD_SIZE - 1) (positions s) ∧
  ∀ r card c p,
    turn_step shuffle n s = Return r →
    Py.getitem (deck (replenish shuffle s)) (deck_index (replenish shuffle s)) = Return card →
    Py.index COLORS card = Return c →
    Py.getitem (positions s) (turn s `mod` n) = Return p →
    c ≤ p →
    Py.getitem (positions (after r)) (turn s `mod` n) = Return (c + 6) ∧
    6 ≤ c + 6 ∧ BOARD_SIZE - 1 = 5 ∧
    r = Done (mkResult (turn s `mod` n) (turn s + 1)) (after r) ∧
    ∀ fuel, play_loop shuffle (S fuel) n s
            = Return (mkResult (turn s `mod` n) (turn s + 1), rng (after r)).
Proof.
  intros (Hlen & Hpos & Hturn)%reachable_board_inv. split.
  { eapply Forall_impl; [|exact Hpos]. cbn. intros p ?. change BOARD_SIZE with 6. lia. }
  intros r card c p Hstep Hcard Hc Hp Hle.
  apply turn_step_Return in Hstep as Hinv.
  destruct Hinv as (card0 & c0 & p0 & ps & Hn & Hcard0 & Hc0 & Hp0 & Hps & Hr).
  rewrite Hcard in Hcard0. injection Hcard0 as <-.
  rewrite Hc in Hc0. injection Hc0 as <-.
  rewrite Hp in Hp0. injection Hp0 as <-.
  apply index_COLORS in Hc as [Hc _].
  destruct (landing_cases c p) as [[? ?]|(_ & Hl & Hl6)]; [lia..|].
  rewrite Hl in *. cbv zeta in Hr.
  destruct (Z.geb_spec (c + 6) (BOARD_SIZE - 1)) as [_|Hlt];
    [|change BOARD_SIZE with 6 in Hlt; lia].
  subst r. cbn [after positions rng].
  split; [by eapply getitem_setitem|]. split; [lia|]. do 2 (split; [done|]).
  intros fuel. cbn [play_loop]. rewrite Hstep. done.
Qed.

End Board.

(** ** The deck at the top of every pass *)

Lemma shuffle_permutes_keeps_length {RNG}
    (shuffle : list string → RNG → list string * RNG) :
  shuffle_permutes shuffle → shuffle_keeps_length shuffle.
Proof. intros H x g. apply Permutation_length, H. Qed.

Section Deck.

Context {RNG : Type}.
Variable shuffle : list string → RNG → list string * RNG.
Hypothesis shuffle_length : shuffle_keeps_length shuffle.

Implicit Types (s : @state RNG) (n : Z) (g : RNG).

Lemma create_deck_length g : length (create_deck shuffle g).1 = 12%nat.
Proof. unfold create_deck. by rewrite shuffle_length. Qed.

Lemma init_deck_inv n g : deck_inv (init_state shuffle n g).
Proof.
  unfold init_state, deck_inv. pose proof (create_deck_length g) as H.
  destruct (create_deck shuffle g) as [d g']. cbn in *. lia.
Qed.

(** After the replenishing lines the cursor is on a card. *)
Lemma replenish_in_range s :
  deck_inv s →
  length (deck (replenish shuffle s)) = 12%nat ∧
  0 ≤ deck_index (replenish shuffle s) < 12.
Proof.
  intros [Hlen Hidx].
  destruct (decide (Z.of_nat (length (deck s)) ≤ deck_index s)) as [Hex|Hst].
  - rewrite replenish_exhausted by done. cbn. rewrite create_deck_length. lia.
  - rewrite replenish_stocked by lia. lia.
Qed.

Lemma step_deck_inv n s s' :
  deck_inv s → turn_step shuffle n s = Return (Continue s') → deck_inv s'.
Proof.
  intros Hinv (card & c & p & ps & _ & _ & _ & _ & _ & _ & ->)%turn_step_Continue.
  destruct (replenish_in_range s Hinv) as [Hlen Hidx].
  unfold deck_inv. cbn. lia.
Qed.

Lemma reachable_deck_inv n g s : reachable shuffle n g s → deck_inv s.
Proof.
  induction 1 as [|s s' _ IH Hstep]; [apply init_deck_inv|].
  by eapply step_deck_inv.
Qed.

Lemma draw_succeeds s :
  deck_inv s →
  ∃ card, Py.getitem (deck (replenish shuffle s)) (deck_index (replenish shuffle s))
          = Return card.
Proof.
  intros [Hlen Hidx]%replenish_in_range. apply getitem_in_range. lia.
Qed.

End Deck.

Section DeckCards.

Context {RNG : Type}.
Variable shuffle : list string → RNG → list string * RNG.
Hypothesis shuffle_perm : shuffle_permutes shuffle.

Implicit Types (s : @state RNG) (n : Z) (g : RNG).

Lemma create_deck_perm g : (create_deck shuffle g).1 ≡ₚ COLORS ++ COLORS.
Proof. unfold create_deck. apply shuffle_perm. Qed.

Lemma replenish_perm s :
  deck s ≡ₚ COLORS ++ COLORS → deck (replenish shuffle s) ≡ₚ COLORS ++ COLORS.
Proof.
  intros H. unfold replenish. destruct (_ >=? _); [|done].
  pose proof (create_deck_perm (rng s)) as Hd.
  by destruct (create_deck shuffle (rng s)).
Qed.

Lemma reachable_deck_perm n g s :
  reachable shuffle n g s → deck s ≡ₚ COLORS ++ COLORS.
Proof.
  induction 1 as [|s s' _ IH Hstep].
  - unfold init_state. pose proof (create_deck_perm g) as Hd.
    by destruct (create_deck shuffle g).
  - apply turn_step_Continue in Hstep
      as (card & c & p & ps & _ & _ & _ & _ & _ & _ & ->).
    cbn. by apply replenish_perm.
Qed.

Lemma card_of_deck_in_COLORS (d : list string) card :
  d ≡ₚ COLORS ++ COLORS → card ∈ d → card ∈ COLORS.
Proof.
  intros Hd Hin. rewrite Hd in Hin. apply elem_of_app in Hin. tauto.
Qed.

End DeckCards.

(** ** Termination of a game *)

Section Termination.

Context {RNG : Type}.
Variable shuffle : list string → RNG → list string * RNG.

Implicit Types (s : @state RNG) (n : Z) (g : RNG) (fuel : nat).

(** More fuel does not change what a game returns or raises. *)
Lemma play_loop_fuel_mono fuel fuel' n s x :
  (fuel ≤ fuel')%nat →
  play_loop shuffle fuel n s = x → x ≠ OutOfFuel →
  play_loop shuffle fuel' n s = x.
Proof.
  revert fuel' s. induction fuel as [|fuel IH]; intros fuel' s Hle Hx Hne.
  { cbn in Hx. congruence. }
  destruct fuel' as [|fuel']; [lia|]. cbn in *.
  destruct (turn_step shuffle n s) as [[s'|res sf]| |]; cbn in *; [|done..].
  apply IH; [lia|done..].
Qed.

(** With players and well-formed decks a pass raises nothing. *)
Lemma turn_step_progress n s :
  1 ≤ n → board_inv n s → deck_inv s →
  (∀ card, card ∈ deck (replenish shuffle s) → card ∈ COLORS) →
  shuffle_keeps_length shuffle →
  ∃ r, turn_step shuffle n s = Return r.
Proof.
  intros Hn (Hlen & Hpos & Hturn) Hdeck Hcards Hshuffle.
  destruct (draw_succeeds shuffle Hshuffle s Hdeck) as [card Hcard].
  destruct (index_COLORS_elem card) as [c Hc].
  { apply Hcards. apply getitem_Return in Hcard as (j & _ & Hj).
    by eapply list_elem_of_lookup_2. }
  pose proof (Z.mod_pos_bound (turn s) n ltac:(lia)) as Hcp.
  destruct (getitem_in_range (positions s) (turn s `mod` n)) as [p Hp]; [lia|].
  eexists. apply turn_step_Return. exists card, c, p.
  eexists. split; [lia|]. do 3 (split; [done|]). split; [|done].
  apply setitem_Return. eexists. split; [|done].
  apply norm_index_nonneg. lia.
Qed.

Lemma board_inv_turn_bound n s :
  1 ≤ n → board_inv n s → 0 ≤ turn s ≤ 4 * n.
Proof.
  intros Hn (Hlen & Hpos & Hturn).
  pose proof (sum_le_bound 4 (positions s)) as Hsum.
  rewrite Hlen in Hsum. split; [lia|]. etrans; [apply Hturn|].
  etrans; [apply Hsum|lia].
  eapply Forall_impl; [|exact Hpos]. cbn. intros; lia.
Qed.

Lemma play_loop_terminates fuel n s :
  shuffle_permutes shuffle →
  1 ≤ n → board_inv n s → deck_inv s → deck s ≡ₚ COLORS ++ COLORS →
  4 * n + 1 - turn s ≤ Z.of_nat fuel →
  ∃ res g',
    play_loop shuffle fuel n s = Return (res, g') ∧
    0 ≤ winner res < n ∧ turn s + 1 ≤ turns res ≤ 4 * n + 1.
Proof.
  intros Hperm Hn.
  pose proof (shuffle_permutes_keeps_length shuffle Hperm) as Hkeep.
  revert s. induction fuel as [|fuel IH]; intros s Hboard Hdeck Hcards Hfuel.
  all: pose proof (board_inv_turn_bound n s Hn Hboard) as Hturn.
  { lia. }
  destruct (turn_step_progress n s) as [r Hr]; [done..| |done|].
  { intros card. apply card_of_deck_in_COLORS. by apply replenish_perm. }
  cbn. rewrite Hr. cbn. destruct r as [s'|res sf].
  - pose proof (step_board_inv _ _ _ _ Hboard Hr) as Hboard'.
    pose proof (step_deck_inv _ Hkeep _ _ _ Hdeck Hr) as Hdeck'.
    apply turn_step_Continue in Hr
      as (card & c & p & ps & _ & _ & _ & _ & _ & _ & ->).
    destruct (IH _ Hboard' Hdeck') as (res & g' & Hres & Hw & Ht).
    { cbn. by apply replenish_perm. }
    { cbn. lia. }
    exists res, g'. split; [done|]. split; [done|]. cbn in Ht. lia.
  - apply turn_step_Done in Hr
      as (card & c & p & ps & _ & _ & _ & _ & _ & _ & -> & ->).
    eexists _, _. split; [done|]. cbn.
    pose proof (Z.mod_pos_bound (turn s) n ltac:(lia)). lia.
Qed.

End Termination.

Lemma play_game_returns {RNG} (shuffle : list string → RNG → list string * RNG)
    (n : Z) (g : RNG) fuel :
  shuffle_permutes shuffle → 1 ≤ n → (Z.to_nat (4 * n + 1) ≤ fuel)%nat →
  ∃ res g',
    play_game shuffle fuel n g = Return (res, g') ∧
    0 ≤ winner res < n ∧ 1 ≤ turns res ≤ 4 * n + 1.
Proof.
  intros Hperm Hn Hfuel.
  pose proof (shuffle_permutes_keeps_length shuffle Hperm) as Hkeep.
  pose proof (init_board_inv shuffle n g) as Hboard.
  destruct (play_loop_terminates shuffle fuel n (init_state shuffle n g))
    as (res & g' & Hres & Hw & Ht); [done..| | | |].
  - by apply init_deck_inv.
  - apply (reachable_deck_perm shuffle Hperm n g), reachable_init.
  - destruct Hboard as (_ & _ & ?). lia.
  - exists res, g'. split; [done|]. split; [done|].
    destruct Hboard as (_ & _ & ?). lia.
Qed.

(** C4: with at least one player and a shuffle that rearranges the deck
    it is given, whatever the random source, [play_game] returns from
    [4 * num_players + 1] units of fuel on, always the same result: one
    winner, whose index is in [[0, num_players)], and at least one turn. *)
Theorem play_game_terminates {RNG} (shuffle : list string → RNG → list string * RNG)
    (num_players : Z) (g : RNG) :
  shuffle_permutes shuffle →
  num_players >= 1 →
  ∃ res g',
    (∀ fuel, (Z.to_nat (4 * num_players + 1) ≤ fuel)%nat →
             play_game shuffle fuel num_players g = Return (res, g')) ∧
    (∀ fuel x, play_game shuffle fuel num_players g = x →
               x = Return (res, g') ∨ x = OutOfFuel) ∧
    0 ≤ winner res < num_players ∧
    turns res >= 1.
Proof.
  intros Hperm Hn.
  destruct (play_game_returns shuffle num_players g (Z.to_nat (4 * num_players + 1)))
    as (res & g' & Hres & Hw & Ht); [done|lia|done|].
  exists res, g'. split; [|split]; [| |split; [done|lia]].
  - intros fuel Hfuel. unfold play_game in *. by eapply play_loop_fuel_mono.
  - intros fuel x Hx.
    assert (x = OutOfFuel ∨ x ≠ OutOfFuel) as [|Hne]
      by (destruct x; [right|right|left]; done).
    { by right. }
    left. unfold play_game in *.
    apply (play_loop_fuel_mono shuffle fuel (fuel `max` Z.to_nat (4 * num_players + 1)))
      in Hx; [|lia|done].
    rewrite <- Hx. eapply play_loop_fuel_mono; [|exact Hres|done]. lia.
Qed.

(** ** The shuffles *)

Section Exchange.

Context {A : Type}.
Implicit Types (x l : list A) (a b : A) (i j : nat).

Lemma insert_head_perm l j a b :
  l !! j = Some b → b :: <[j:=a]> l ≡ₚ a :: l.
Proof.
  revert j. induction l as [|y l IH]; intros [|j] H; simplify_eq/=.
  - apply perm_swap.
  - rewrite perm_swap, (IH j H). apply perm_swap.
Qed.

Lemma insert_insert_perm l i j a b :
  l !! i = Some a → l !! j = Some b → <[j:=a]> (<[i:=b]> l) ≡ₚ l.
Proof.
  revert i j. induction l as [|y l IH]; intros [|i] [|j] Hi Hj; simplify_eq/=.
  - done.
  - by apply insert_head_perm.
  - by apply insert_head_perm.
  - f_equiv. by apply IH.
Qed.

Lemma exchange_perm x i j : Random.exchange x i j ≡ₚ x.
Proof.
  unfold Random.exchange.
  destruct (x !! j) as [xj|] eqn:Hj; [|done].
  destruct (x !! i) as [xi|] eqn:Hi; [|done].
  by apply insert_insert_perm.
Qed.

Lemma shuffle_from_perm i x (g : Random.tape) :
  (Random.shuffle_from i x g).1 ≡ₚ x.
Proof.
  revert x g. induction i as [|i IH]; intros x g; [done|]. cbn.
  destruct (Random.randbelow _ g) as [j g'].
  rewrite IH. apply exchange_perm.
Qed.

End Exchange.

Lemma random_shuffle_permutes : shuffle_permutes (@Random.shuffle string).
Proof. intros x g. apply shuffle_from_perm. Qed.

Lemma rigged_shuffle_keeps_length : shuffle_keeps_length Rigged.shuffle.
Proof.
  intros x [|d g]; [done|]. cbn.
  rewrite length_take, length_app. lia.
Qed.

(** ** The composition of a deck *)

Lemma count_perm (l k : list string) card : l ≡ₚ k → count card l = count card k.
Proof. intros H. unfold count. by rewrite H. Qed.

Lemma count_not_elem (l : list string) card : card ∉ l → count card l = 0%nat.
Proof.
  unfold count. induction l as [|y l IH]; [done|].
  intros [Hne Hl]%not_elem_of_cons.
  rewrite filter_cons_False by congruence. by apply IH.
Qed.

(** C7: every deck [create_deck] returns, whatever the state of the random
    source, has 12 cards and is a rearrangement of the six colors taken
    twice: each color occurs exactly twice and nothing else occurs. *)
Theorem create_deck_composition {RNG}
    (shuffle : list string → RNG → list string * RNG) (g : RNG) :
  shuffle_permutes shuffle →
  length (create_deck shuffle g).1 = 12%nat ∧
  (create_deck shuffle g).1 ≡ₚ COLORS ++ COLORS ∧
  (∀ card, card ∈ COLORS → count card (create_deck shuffle g).1 = 2%nat) ∧
  (∀ card, card ∉ COLORS → count card (create_deck shuffle g).1 = 0%nat).
Proof.
  intros Hperm. pose proof (create_deck_perm shuffle Hperm g) as Hd.
  split; [by rewrite Hd|]. split; [done|]. split.
  - intros card Hin. rewrite (count_perm _ _ _ Hd).
    unfold COLORS in Hin.
    repeat (apply elem_of_cons in Hin as [->|Hin]; [reflexivity|]).
    by apply elem_of_nil in Hin.
  - intros card Hnin. rewrite (count_perm _ _ _ Hd).
    apply count_not_elem. rewrite elem_of_app. tauto.
Qed.

(** ** Replenishing the deck *)

Section Replenishment.

Context {RNG : Type}.
Variable shuffle : list string → RNG → list string * RNG.
Hypothesis shuffle_length : shuffle_keeps_length shuffle.

Implicit Types (s : @state RNG) (n : Z) (g : RNG) (fuel : nat).

Lemma init_cursor_inv n g : cursor_inv (init_state shuffle n g).
Proof.
  unfold init_state, cursor_inv. by destruct (create_deck shuffle g).
Qed.

Lemma step_cursor_inv n s s' :
  deck_inv s → cursor_inv s →
  turn_step shuffle n s = Return (Continue s') → cursor_inv s'.
Proof.
  intros [Hlen Hidx] [Hturn Hcur].
  intros (card & c & p & ps & _ & _ & _ & _ & _ & _ & ->)%turn_step_Continue.
  unfold cursor_inv. cbn. split; [lia|]. intros Hle.
  rewrite replenish_stocked by lia. lia.
Qed.

Lemma reachable_cursor_inv n g s : reachable shuffle n g s → cursor_inv s.
Proof.
  induction 1 as [|s s' Hs IH Hstep]; [apply init_cursor_inv|].
  eapply step_cursor_inv; [|done..]. by eapply reachable_deck_inv.
Qed.

(** A game that returns more than twelve turns went through turn 12. *)
Lemma play_loop_through_12 fuel n g s res g' :
  reachable shuffle n g s → turn s ≤ 12 →
  play_loop shuffle fuel n s = Return (res, g') → turns res > 12 →
  ∃ s12, reachable shuffle n g s12 ∧ turn s12 = 12.
Proof.
  revert s. induction fuel as [|fuel IH]; intros s Hs Hle Hloop Hres; [done|].
  destruct (decide (turn s = 12)) as [|Hne]; [by eauto|].
  cbn in Hloop.
  destruct (turn_step shuffle n s) as [[s'|res' sf]| |] eqn:Hstep;
    cbn in Hloop; [| |done..].
  - apply (IH s'); [|..|done|done].
    + by eapply reachable_step.
    + apply turn_step_Continue in Hstep
        as (card & c & p & ps & _ & _ & _ & _ & _ & _ & ->).
      cbn. lia.
  - cbn in Hloop. injection Hloop as <- <-.
    apply turn_step_Done in Hstep
      as (card & c & p & ps & _ & _ & _ & _ & _ & _ & -> & ->).
    cbn in Hres. lia.
Qed.

(** C8: at every pass of a game the card is drawn with the cursor inside
    the deck: when the cursor has reached the length of the deck, the deck
    is first replaced by a new deck of [create_deck], twelve cards long,
    and the cursor set to 0; otherwise deck and cursor stay.  A game that
    returns more than 12 turns went through a pass, the one of turn 12,
    that found the deck exhausted and replaced it. *)
Theorem deck_replenishment n g :
  (∀ s, reachable shuffle n g s →
     (deck_index s >= Z.of_nat (length (deck s)) →
        deck (replenish shuffle s) = (create_deck shuffle (rng s)).1 ∧
        rng (replenish shuffle s) = (create_deck shuffle (rng s)).2 ∧
        length (deck (replenish shuffle s)) = 12%nat ∧
        deck_index (replenish shuffle s) = 0) ∧
     (deck_index s < Z.of_nat (length (deck s)) → replenish shuffle s = s) ∧
     0 ≤ deck_index (replenish shuffle s)
       < Z.of_nat (length (deck (replenish shuffle s))) ∧
     ∃ card,
       Py.getitem (deck (replenish shuffle s)) (deck_index (replenish shuffle s))
         = Return card) ∧
  (∀ fuel res g',
     play_game shuffle fuel n g = Return (res, g') →
     turns res > 12 →
     ∃ s, reachable shuffle n g s ∧ turn s = 12 ∧
          deck_index s >= Z.of_nat (length (deck s)) ∧
          deck (replenish shuffle s) = (create_deck shuffle (rng s)).1 ∧
          deck_index (replenish shuffle s) = 0).
Proof.
  split.
  - intros s Hs. pose proof (reachable_deck_inv shuffle shuffle_length _ _ _ Hs) as Hdeck.
    destruct (replenish_in_range shuffle shuffle_length s Hdeck) as [Hlen Hidx].
    split; [|split; [|split]].
    + intros Hex. rewrite replenish_exhausted by lia. cbn.
      by rewrite create_deck_length.
    + intros Hst. by apply replenish_stocked.
    + lia.
    + by apply draw_succeeds.
  - intros fuel res g' Hgame Hres.
    destruct (play_loop_through_12 fuel n g (init_state shuffle n g) res g')
      as (s & Hs & Hturn); [apply reachable_init| |done..|].
    { pose proof (init_cursor_inv n g) as [_ Hc].
      destruct (decide (turn (init_state shuffle n g) ≤ 12)); [done|].
      unfold init_state in *. destruct (create_deck shuffle g). cbn in *. lia. }
    exists s. split; [done|]. split; [done|].
    pose proof (reachable_deck_inv shuffle shuffle_length _ _ _ Hs) as [Hlen Hidx].
    pose proof (reachable_cursor_inv _ _ _ Hs) as [_ Hcur].
    assert (Z.of_nat (length (deck s)) ≤ deck_index s) as Hex by lia.
    split; [lia|]. by rewrite replenish_exhausted.
Qed.

End Replenishment.

(** ** The scenario of a deck that starts with Green and Yellow *)

(** C3, as the specification words it: with Green and then Yellow drawn in
    a game of one player, the position would be 2 after the first turn and
    7 when the game returns on the second.  It is not so. *)
Lemma green_yellow_not_2_then_7 :
  ¬ ∃ s1 sf,
      turn_step Rigged.shuffle 1 (init_state Rigged.shuffle 1 [["Green"; "Yellow"]])
        = Return (Continue s1) ∧
      positions s1 = [2] ∧
      turn_step Rigged.shuffle 1 s1 = Return (Done (mkResult 0 2) sf) ∧
      positions sf = [7].
Proof.
  intros (s1 & sf & Hstep1 & Hpos1 & _). vm_compute in Hstep1.
  injection Hstep1 as <-. discriminate Hpos1.
Qed.

(** C3, amended: Green has color index 3 and Yellow color index 2.  When
    the first deck starts with Green and Yellow, a game of one player
    moves from 0 to 3 on the first turn, stores 2 + 6 = 8 on the second,
    and returns winner 0 after 2 turns. *)
Theorem green_yellow_scenario {RNG}
    (shuffle : list string → RNG → list string * RNG) (g g' : RNG) d fuel :
  create_deck shuffle g = ("Green" :: "Yellow" :: d, g') →
  (2 ≤ fuel)%nat →
  Py.index COLORS "Green" = Return 3 ∧
  Py.index COLORS "Yellow" = Return 2 ∧
  positions (init_state shuffle 1 g) = [0] ∧
  ∃ s1 sf,
    turn_step shuffle 1 (init_state shuffle 1 g) = Return (Continue s1) ∧
    positions s1 = [3] ∧
    turn_step shuffle 1 s1 = Return (Done (mkResult 0 2) sf) ∧
    positions sf = [8] ∧
    play_game shuffle fuel 1 g = Return (mkResult 0 2, g').
Proof.
  intros Hdeck Hfuel. do 2 (split; [done|]).
  unfold play_game, init_state. rewrite Hdeck. split; [done|].
  set (s0 := mkState (Py.repeat 0 1) ("Green" :: "Yellow" :: d) 0 0 g').
  set (s1 := mkState [3] ("Green" :: "Yellow" :: d) 1 1 g').
  set (sf := mkState [8] ("Green" :: "Yellow" :: d) 2 1 g').
  assert (turn_step shuffle 1 s0 = Return (Continue s1)) as Hstep1.
  { apply turn_step_Continue. exists "Green", 3, 0, [3].
    rewrite replenish_stocked by (cbn; lia).
    split; [done|]. split; [by apply getitem_nonneg|]. done. }
  assert (turn_step shuffle 1 s1 = Return (Done (mkResult 0 2) sf)) as Hstep2.
  { apply turn_step_Done. exists "Yellow", 2, 3, [8].
    rewrite replenish_stocked by (cbn; lia).
    split; [done|]. split; [by apply getitem_nonneg|]. done. }
  exists s1, sf. do 4 (split; [done|]).
  destruct fuel as [|[|fuel]]; [lia..|].
  cbn [play_loop]. rewrite Hstep1. cbn. by rewrite Hstep2.
Qed.

(** ** Aggregation *)

Lemma total_empty : total ∅ = 0.
Proof. unfold total. apply map_fold_empty. Qed.

Lemma total_insert_fresh (wins : gmap Z Z) w v :
  wins !! w = None → total (<[w:=v]> wins) = v + total wins.
Proof.
  intros H. unfold total. rewrite map_fold_insert_L; [done| |done].
  intros; lia.
Qed.

Lemma total_delete (wins : gmap Z Z) w v :
  wins !! w = Some v → total wins = v + total (delete w wins).
Proof.
  intros H. unfold total.
  rewrite (map_fold_delete_L _ _ w v wins); [done| |done].
  intros; lia.
Qed.

Lemma total_tally wins r : total (tally wins r) = total wins + 1.
Proof.
  unfold tally. destruct (wins !! winner r) as [v|] eqn:Hw; cbn.
  - rewrite <- insert_delete_eq.
    rewrite total_insert_fresh by apply lookup_delete_eq.
    rewrite (total_delete wins _ _ Hw). lia.
  - rewrite total_insert_fresh by done. lia.
Qed.

Lemma total_foldl_tally wins rs :
  total (foldl tally wins rs) = total wins + Z.of_nat (length rs).
Proof.
  revert wins. induction rs as [|r rs IH]; intros wins; cbn [foldl length].
  - lia.
  - rewrite IH, total_tally. lia.
Qed.

Lemma wins_of_cons w r rs :
  wins_of w (r :: rs) = ((if decide (winner r = w) then 1 else 0) + wins_of w rs)%nat.
Proof.
  unfold wins_of. rewrite filter_cons. by case_decide.
Qed.

Lemma lookup_tally wins r w :
  tally wins r !! w =
    if decide (winner r = w) then Some (default 0 (wins !! w) + 1) else wins !! w.
Proof.
  unfold tally. case_decide as Hw.
  - subst w. apply lookup_insert_eq.
  - by apply lookup_insert_ne.
Qed.

(** A count in the map is the number of games won, and a player is in
    the map from the first win on. *)
Lemma lookup_foldl_tally wins rs w :
  default 0 (foldl tally wins rs !! w)
    = default 0 (wins !! w) + Z.of_nat (wins_of w rs) ∧
  (foldl tally wins rs !! w = None ↔ wins !! w = None ∧ wins_of w rs = 0%nat).
Proof.
  revert wins. induction rs as [|r rs IH]; intros wins; cbn [foldl].
  - unfold wins_of. cbn. split; [lia|tauto].
  - destruct (IH (tally wins r)) as [IHv IHn].
    rewrite IHv, IHn, wins_of_cons, lookup_tally.
    case_decide; cbn; split; try lia; try tauto.
    split; [intros [[=] _]|intros [_ [=]]].
Qed.

Lemma simulate_play_games {RNG} (shuffle : list string → RNG → list string * RNG)
    fuel n np wins ts g :
  simulate shuffle fuel n np wins ts g =
    ('(rs, g') ← play_games shuffle fuel n np g;
     Return (foldl tally wins rs, ts ++ (turns <$> rs), g')).
Proof.
  revert wins ts g. induction n as [|n IH]; intros wins ts g; cbn.
  - by rewrite app_nil_r.
  - destruct (play_game shuffle fuel np g) as [[r g1]| |]; cbn; [|done..].
    rewrite IH.
    destruct (play_games shuffle fuel n np g1) as [[rs g2]| |]; cbn; [|done..].
    by rewrite <- app_assoc.
Qed.

Lemma play_games_returns {RNG} (shuffle : list string → RNG → list string * RNG)
    fuel n np g :
  shuffle_permutes shuffle → 1 ≤ np → (Z.to_nat (4 * np + 1) ≤ fuel)%nat →
  ∃ rs g',
    play_games shuffle fuel n np g = Return (rs, g') ∧
    length rs = n ∧
    Forall (λ r, 0 ≤ winner r < np ∧ 1 ≤ turns r ≤ 4 * np + 1) rs.
Proof.
  intros Hperm Hnp Hfuel. revert g. induction n as [|n IH]; intros g; cbn.
  - by exists [], g.
  - destruct (play_game_returns shuffle np g fuel) as (r & g1 & Hr & Hw & Ht);
      [done..|].
    rewrite Hr. cbn.
    destruct (IH g1) as (rs & g2 & Hrs & Hlen & Hall). rewrite Hrs. cbn.
    exists (r :: rs), g2. split; [done|]. split; [by rewrite <- Hlen|].
    by constructor.
Qed.

(** ** Extremes and mean *)

Lemma foldl_min_spec x l :
  (foldl Z.min x l = x ∨ foldl Z.min x l ∈ l) ∧
  foldl Z.min x l ≤ x ∧ Forall (λ y, foldl Z.min x l ≤ y) l.
Proof.
  revert x. induction l as [|y l IH]; intros x; cbn.
  - split; [by left|]. split; [lia|constructor].
  - destruct (IH (x `min` y)) as (Hin & Hle & Hall).
    split; [|split; [lia|constructor; [lia|done]]].
    destruct Hin as [->|Hin]; [|right; by right].
    destruct (Z.min_spec x y) as [[_ ->]|[_ ->]]; [by left|right; by left].
Qed.

Lemma foldl_max_spec x l :
  (foldl Z.max x l = x ∨ foldl Z.max x l ∈ l) ∧
  x ≤ foldl Z.max x l ∧ Forall (λ y, y ≤ foldl Z.max x l) l.
Proof.
  revert x. induction l as [|y l IH]; intros x; cbn.
  - split; [by left|]. split; [lia|constructor].
  - destruct (IH (x `max` y)) as (Hin & Hle & Hall).
    split; [|split; [lia|constructor; [lia|done]]].
    destruct Hin as [->|Hin]; [|right; by right].
    destruct (Z.max_spec x y) as [[_ ->]|[_ ->]]; [right; by left|by left].
Qed.

Lemma min_spec l m : Py.min l = Return m → m ∈ l ∧ Forall (λ y, m ≤ y) l.
Proof.
  destruct l as [|x l]; [done|]. cbn. intros [= <-].
  destruct (foldl_min_spec x l) as (Hin & Hle & Hall). split.
  - destruct Hin as [->|Hin]; [by left|by right].
  - by constructor.
Qed.

Lemma max_spec l m : Py.max l = Return m → m ∈ l ∧ Forall (λ y, y ≤ m) l.
Proof.
  destruct l as [|x l]; [done|]. cbn. intros [= <-].
  destruct (foldl_max_spec x l) as (Hin & Hle & Hall). split.
  - destruct Hin as [->|Hin]; [by left|by right].
  - by constructor.
Qed.

Lemma sum_ge_bound b l :
  Forall (λ p, b ≤ p) l → b * Z.of_nat (length l) ≤ Py.sum l.
Proof.
  induction 1 as [|x l Hx _ IH]; [cbn; lia|]. rewrite sum_cons. cbn [length]. lia.
Qed.

Lemma Qc_le_div (m a b : Z) :
  0 < b → m * b ≤ a → (Qc_of_Z m ≤ Qc_of_Z a / Qc_of_Z b)%Qc.
Proof.
  intros Hb Hle.
  pose proof (proj1 (Z2Qc_inj_lt 0 b) Hb) as Hb'. rewrite Z2Qc_inj_0 in Hb'.
  apply (Qcmult_le_mono_pos_r _ _ (Qc_of_Z b) Hb').
  rewrite (Qcmult_comm (_ / _)), Qcmult_div_r.
  - rewrite <- Z2Qc_inj_mul. exact (proj1 (Z2Qc_inj_le _ _) Hle).
  - apply not_symmetry. by apply Qclt_not_eq.
Qed.

Lemma Qc_div_le (m a b : Z) :
  0 < b → a ≤ m * b → (Qc_of_Z a / Qc_of_Z b ≤ Qc_of_Z m)%Qc.
Proof.
  intros Hb Hle.
  pose proof (proj1 (Z2Qc_inj_lt 0 b) Hb) as Hb'. rewrite Z2Qc_inj_0 in Hb'.
  apply (Qcmult_le_mono_pos_r _ _ (Qc_of_Z b) Hb').
  rewrite (Qcmult_comm (_ / _)), Qcmult_div_r.
  - rewrite <- Z2Qc_inj_mul. exact (proj1 (Z2Qc_inj_le _ _) Hle).
  - apply not_symmetry. by apply Qclt_not_eq.
Qed.

(** ** The statistics of a batch *)

(** C5: a batch of at least one simulation, with at least one player and a
    shuffle that rearranges its deck, returns statistics in which the win
    counts sum to [num_simulations], a count is the number of games that
    player won and a player who won none is absent, [avg_turns] is the
    arithmetic mean of the turn counts of the games, [min_turns] and
    [max_turns] are the least and greatest of them, and
    [min_turns <= avg_turns <= max_turns]. *)
Theorem aggregation {RNG} (shuffle : list string → RNG → list string * RNG)
    (fuel : nat) (num_simulations num_players : Z) (g : RNG) :
  shuffle_permutes shuffle →
  num_simulations >= 1 →
  num_players >= 1 →
  (Z.to_nat (4 * num_players + 1) ≤ fuel)%nat →
  ∃ stats results g',
    run_simulations shuffle fuel num_simulations num_players g = Return (stats, g') ∧
    play_games shuffle fuel (Z.to_nat num_simulations) num_players g
      = Return (results, g') ∧
    Z.of_nat (length results) = num_simulations ∧
    total (wins_per_player stats) = num_simulations ∧
    (∀ w, default 0 (wins_per_player stats !! w) = Z.of_nat (wins_of w results)) ∧
    (∀ w, wins_per_player stats !! w = None ↔ wins_of w results = 0%nat) ∧
    avg_turns stats = mean (turns <$> results) ∧
    (Qc_of_Z (min_turns stats) ≤ avg_turns stats)%Qc ∧
    (avg_turns stats ≤ Qc_of_Z (max_turns stats))%Qc ∧
    min_turns stats ∈ turns <$> results ∧
    max_turns stats ∈ turns <$> results ∧
    Forall (λ t, min_turns stats ≤ t ≤ max_turns stats) (turns <$> results).
Proof.
  intros Hperm Hns Hnp Hfuel.
  destruct (play_games_returns shuffle fuel (Z.to_nat num_simulations) num_players g)
    as (rs & g' & Hrs & Hlen & _); [done|lia|done|].
  unfold run_simulations. rewrite simulate_play_games, Hrs. cbn.
  rewrite length_fmap, Hlen.
  unfold Py.truediv. case_decide as Hz; [lia|]. cbn.
  destruct (Py.min (turns <$> rs)) as [lo| |] eqn:Hlo;
    [|destruct rs; [cbn in Hlen; lia|done]..].
  destruct (Py.max (turns <$> rs)) as [hi| |] eqn:Hhi;
    [|destruct rs; [cbn in Hlen; lia|done]..].
  cbn. apply min_spec in Hlo as [Hlo_in Hlo_all].
  apply max_spec in Hhi as [Hhi_in Hhi_all].
  pose proof (sum_ge_bound _ _ Hlo_all) as Hsum_lo.
  pose proof (sum_le_bound _ _ Hhi_all) as Hsum_hi.
  rewrite length_fmap, Hlen in Hsum_lo, Hsum_hi.
  eexists _, rs, g'. split; [done|]. cbn.
  split; [done|]. split; [lia|].
  split; [rewrite total_foldl_tally, total_empty; lia|].
  split; [intros w; by rewrite (proj1 (lookup_foldl_tally ∅ rs w)), lookup_empty|].
  split.
  { intros w. rewrite (proj2 (lookup_foldl_tally ∅ rs w)), lookup_empty. tauto. }
  split.
  { unfold mean. by rewrite sum_foldr, length_fmap, Hlen. }
  unfold Py.sum in Hsum_lo, Hsum_hi.
  split; [apply Qc_le_div; lia|]. split; [apply Qc_div_le; lia|].
  do 2 (split; [done|]).
  apply Forall_forall. intros t Ht.
  rewrite Forall_forall in Hlo_all, Hhi_all. split; auto.
Qed.

(** ** Invalid configurations *)

(** C9, as the specification words it: an invalid configuration is turned
    down with an error of its own before any game is played.  It is not:
    with no simulation asked for the batch ends in the division of the
    mean, and with no player the first game, its deck already made, ends
    in the division of its first pass. *)
Lemma invalid_configuration_divides_by_zero :
  run_simulations Random.shuffle 1 0 2 [] = Raise ZeroDivisionError ∧
  (create_deck Random.shuffle [3; 1; 4]%nat).2 ≠ [3; 1; 4]%nat ∧
  turn_step Random.shuffle 0 (init_state Random.shuffle 0 [3; 1; 4]%nat)
    = Raise ZeroDivisionError ∧
  run_simulations Random.shuffle 1 1 0 [3; 1; 4]%nat = Raise ZeroDivisionError.
Proof. vm_compute. split; [done|]. split; [discriminate|done]. Qed.

(** C9, amended: an invalid configuration always ends in an exception, an
    unchecked one of the language.  With [num_simulations <= 0] the batch
    plays no game and raises [ZeroDivisionError] when it takes the mean;
    otherwise the first game raises, [ZeroDivisionError] with no player
    and [IndexError] with a negative number of players. *)
Theorem invalid_configuration {RNG} (shuffle : list string → RNG → list string * RNG)
    (fuel : nat) (num_simulations num_players : Z) (g : RNG) :
  shuffle_permutes shuffle →
  (0 < fuel)%nat →
  num_simulations ≤ 0 ∨ num_players ≤ 0 →
  run_simulations shuffle fuel num_simulations num_players g =
    Raise (if decide (1 ≤ num_simulations ∧ num_players < 0)
           then IndexError else ZeroDivisionError) ∧
  (num_simulations ≤ 0 →
     simulate shuffle fuel (Z.to_nat num_simulations) num_players ∅ [] g
       = Return (∅, [], g)).
Proof.
  intros Hperm Hfuel Hbad.
  pose proof (shuffle_permutes_keeps_length shuffle Hperm) as Hkeep.
  destruct (decide (num_simulations ≤ 0)) as [Hns|Hns].
  { assert (Z.to_nat num_simulations = 0%nat) as Hz by lia.
    unfold run_simulations. rewrite Hz. cbn.
    split; [|done]. case_decide; [lia|done]. }
  split; [|lia]. destruct Hbad as [?|Hnp]; [lia|].
  destruct (Z.to_nat num_simulations) as [|k] eqn:Hk; [lia|].
  destruct fuel as [|fuel]; [lia|].
  unfold run_simulations. rewrite Hk. cbn [simulate].
  unfold play_game. cbn [play_loop].
  destruct (decide (num_players = 0)) as [->|Hne].
  - unfold turn_step, Py.mod_. rewrite decide_True by done. cbn.
    case_decide; [lia|done].
  - assert (turn_step shuffle num_players (init_state shuffle num_players g)
            = Raise IndexError) as ->.
    { pose proof (init_deck_inv shuffle Hkeep num_players g) as Hdeck.
      destruct (draw_succeeds shuffle Hkeep _ Hdeck) as [card Hcard].
      destruct (index_COLORS_elem card) as [c Hc].
      { eapply card_of_deck_in_COLORS.
        - apply (replenish_perm shuffle Hperm).
          apply (reachable_deck_perm shuffle Hperm num_players g), reachable_init.
        - apply getitem_Return in Hcard as (j & _ & Hj).
          by eapply list_elem_of_lookup_2. }
      unfold turn_step.
      assert (Py.mod_ (turn (init_state shuffle num_players g)) num_players
              = Return 0) as ->.
      { apply mod_Return. split; [done|].
        unfold init_state. by destruct (create_deck shuffle g). }
      cbn. rewrite Hcard. cbn. rewrite Hc. cbn.
      rewrite replenish_positions.
      assert (positions (init_state shuffle num_players g) = []) as ->.
      { unfold init_state, Py.repeat. destruct (create_deck shuffle g). cbn.
        by replace (Z.to_nat num_players) with 0%nat by lia. }
      done. }
    cbn. case_decide; [done|lia].
Qed.

(** ** With a real shuffle the first deck is never used up *)

Section FirstDeck.

Context {RNG : Type}.
Variable shuffle : list string → RNG → list string * RNG.
Hypothesis shuffle_perm : shuffle_permutes shuffle.

Implicit Types (s : @state RNG) (n : Z) (g : RNG) (fuel : nat).

(** A deck has eight inner cards, so at most eight lead it. *)
Lemma inner_prefix_bound (d : list string) k :
  d ≡ₚ COLORS ++ COLORS → Forall inner (take k d) → (k ≤ 8)%nat.
Proof.
  intros Hd Hall.
  assert (length (filter inner d) = 8%nat) as H8 by (by rewrite Hd).
  assert (length d = 12%nat) as H12 by (by rewrite Hd).
  rewrite <- (take_drop k d), list.filter_app, length_app in H8.
  assert (filter inner (take k d) = take k d) as Heq.
  { clear -Hall. induction Hall as [|y l Hy _ IH]; [done|].
    by rewrite filter_cons_True, IH. }
  rewrite Heq, length_take in H8. lia.
Qed.

(** A draw that does not end the game is the draw of an inner card. *)
Lemma continue_draws_inner card c p :
  Py.index COLORS card = Return c → 0 ≤ p → landing c p < BOARD_SIZE - 1 →
  inner card.
Proof.
  intros Hc Hp Hlt. apply index_Return in Hc as (Hc0 & Hcard & Hfirst).
  change BOARD_SIZE with 6 in Hlt.
  destruct (landing_cases c p) as [[Hpc Hl]|(_ & _ & ?)]; [done| |lia].
  rewrite Hl in Hlt.
  assert (Z.to_nat c = 1 ∨ Z.to_nat c = 2 ∨ Z.to_nat c = 3 ∨ Z.to_nat c = 4)%nat
    as Hcases by lia.
  destruct Hcases as [Hk|[Hk|[Hk|Hk]]]; rewrite Hk in Hcard;
    injection Hcard as <-; by split.
Qed.

Lemma reachable_first_deck n g s :
  reachable shuffle n g s → first_deck_inv s ∧ turn s ≤ 8.
Proof.
  pose proof (shuffle_permutes_keeps_length shuffle shuffle_perm) as Hkeep.
  assert (∀ s, first_deck_inv s → deck s ≡ₚ COLORS ++ COLORS → turn s ≤ 8)
    as Hbound.
  { intros s0 (H0 & _ & Hall) Hd.
    pose proof (inner_prefix_bound _ _ Hd Hall). lia. }
  intros Hs.
  assert (first_deck_inv s) as Hinv; [|split; [done|]].
  2: { apply Hbound; [done|]. by eapply reachable_deck_perm. }
  induction Hs as [|s s' Hs IH Hstep].
  - unfold init_state, first_deck_inv. destruct (create_deck shuffle g).
    cbn. split; [done|]. split; [done|]. constructor.
  - pose proof (reachable_deck_perm shuffle shuffle_perm _ _ _ Hs) as Hd.
    pose proof (reachable_deck_inv shuffle Hkeep _ _ _ Hs) as [Hlen _].
    pose proof (reachable_board_inv shuffle _ _ _ Hs) as (_ & Hpos & _).
    pose proof (Hbound s IH Hd) as H8. destruct IH as (H0 & Hidx & Hall).
    apply turn_step_Continue in Hstep
      as (card & c & p & ps & _ & Hcard & Hc & Hp & _ & Hlt & ->).
    rewrite replenish_stocked in * by lia.
    apply getitem_nonneg in Hcard; [|lia]. rewrite Hidx in Hcard.
    apply getitem_Return in Hp as (j & _ & Hp).
    pose proof (Forall_lookup_1 _ _ _ _ Hpos Hp) as Hp0. cbn in Hp0.
    unfold first_deck_inv. cbn. split; [lia|]. split; [lia|].
    replace (Z.to_nat (turn s + 1)) with (S (Z.to_nat (turn s))) by lia.
    rewrite (take_S_r _ _ _ Hcard). apply Forall_app. split; [done|].
    constructor; [|constructor]. eapply continue_draws_inner; [done| |done]. lia.
Qed.

Lemma play_loop_last_pass fuel n g s res g' :
  reachable shuffle n g s →
  play_loop shuffle fuel n s = Return (res, g') →
  ∃ s_last, reachable shuffle n g s_last ∧ turns res = turn s_last + 1.
Proof.
  revert s. induction fuel as [|fuel IH]; intros s Hs Hloop; [done|].
  cbn in Hloop.
  destruct (turn_step shuffle n s) as [[s'|res' sf]| |] eqn:Hstep;
    cbn in Hloop; [| |done..].
  - apply (IH s'); [|done]. by eapply reachable_step.
  - injection Hloop as <- <-. exists s. split; [done|].
    apply turn_step_Done in Hstep
      as (card & c & p & ps & _ & _ & _ & _ & _ & _ & -> & ->).
    done.
Qed.

(** X13: with a shuffle that rearranges the deck, a game draws a Red or a
    Violet among the first nine cards and ends there: it never lasts more
    than nine turns and never replaces its deck. *)
Lemma game_ends_on_first_deck fuel n g res g' :
  play_game shuffle fuel n g = Return (res, g') →
  turns res ≤ 9 ∧
  ∀ s, reachable shuffle n g s → deck_index s < Z.of_nat (length (deck s)).
Proof.
  pose proof (shuffle_permutes_keeps_length shuffle shuffle_perm) as Hkeep.
  intros Hgame. split.
  - destruct (play_loop_last_pass fuel n g _ res g' (reachable_init _ _ _) Hgame)
      as (s & Hs & ->).
    apply reachable_first_deck in Hs as [_ ?]. lia.
  - intros s Hs.
    pose proof (reachable_deck_inv shuffle Hkeep _ _ _ Hs) as [Hlen _].
    apply reachable_first_deck in Hs as [(_ & Hidx & _) ?]. lia.
Qed.

End FirstDeck.

(** ** Who wins, and when *)

Lemma getitem_cases {A} (l : list A) i :
  (∃ x, Py.getitem l i = Return x) ∨ Py.getitem l i = Raise IndexError.
Proof.
  unfold Py.getitem. destruct (Py.norm_index _ _) as [j|]; [|by right].
  destruct (l !! j); [left; eauto|by right].
Qed.

Lemma index_cases l x :
  (∃ c, Py.index l x = Return c) ∨ Py.index l x = Raise ValueError.
Proof.
  unfold Py.index. destruct (list_find _ l) as [[i y]|]; [left; eauto|by right].
Qed.

Lemma getitem_nil {A} i : Py.getitem (@nil A) i = Raise IndexError.
Proof.
  unfold Py.getitem, Py.norm_index. cbn.
  repeat case_decide; try done; lia.
Qed.

Section Outcome.

Context {RNG : Type}.
Variable shuffle : list string → RNG → list string * RNG.

Implicit Types (s : @state RNG) (r : @step_result RNG) (n : Z) (g : RNG) (fuel : nat).

(** A game that returns does so from a pass of a state it reached. *)
Lemma play_loop_last_done fuel n g s res g' :
  reachable shuffle n g s →
  play_loop shuffle fuel n s = Return (res, g') →
  ∃ s_last sf,
    reachable shuffle n g s_last ∧
    turn_step shuffle n s_last = Return (Done res sf) ∧ g' = rng sf.
Proof.
  revert s. induction fuel as [|fuel IH]; intros s Hs Hloop; [done|].
  cbn in Hloop.
  destruct (turn_step shuffle n s) as [[s'|res' sf]| |] eqn:Hstep;
    cbn in Hloop; [| |done..].
  - apply (IH s'); [|done]. by eapply reachable_step.
  - injection Hloop as <- <-. by exists s, sf.
Qed.

(** A pass that moves a player has a player to move. *)
Lemma step_has_players n g s r :
  reachable shuffle n g s → turn_step shuffle n s = Return r → 1 ≤ n.
Proof.
  intros (Hlen & _ & _)%reachable_board_inv.
  intros (card & c & p & ps & _ & _ & _ & Hp & _)%turn_step_Return.
  apply getitem_Return in Hp as (j & _ & Hp%lookup_lt_Some). lia.
Qed.

Lemma play_game_result fuel n g res g' :
  play_game shuffle fuel n g = Return (res, g') →
  ∃ s, reachable shuffle n g s ∧ 1 ≤ n ∧ 0 ≤ turn s ≤ 4 * n ∧
       res = mkResult (turn s `mod` n) (turn s + 1).
Proof.
  intros Hgame.
  destruct (play_loop_last_done fuel n g _ res g' (reachable_init _ _ _) Hgame)
    as (s & sf & Hs & Hstep & _).
  pose proof (step_has_players _ _ _ _ Hs Hstep) as Hn.
  pose proof (board_inv_turn_bound n s Hn (reachable_board_inv _ _ _ _ Hs)).
  apply turn_step_Done in Hstep
    as (card & c & p & ps & _ & _ & _ & _ & _ & _ & -> & _).
  by exists s.
Qed.

(** X1: the winner a game returns is the player whose turn the last one
    was: [(turns - 1) % num_players], a valid index, less than [turns]. *)
Theorem winner_is_last_to_move fuel n g res g' :
  play_game shuffle fuel n g = Return (res, g') →
  winner res = (turns res - 1) `mod` n ∧
  0 ≤ winner res < n ∧
  winner res < turns res.
Proof.
  intros (s & _ & Hn & Hturn & ->)%play_game_result. cbn.
  replace (turn s + 1 - 1) with (turn s) by lia.
  pose proof (Z.mod_pos_bound (turn s) n ltac:(lia)).
  pose proof (Z.mod_le (turn s) n ltac:(lia) ltac:(lia)). split; [done|lia].
Qed.

(** X2: whatever the shuffle does, rigged or not, a game that returns
    has at least one player and took between 1 and [4 * num_players + 1]
    turns. *)
Theorem turns_bounded fuel n g res g' :
  play_game shuffle fuel n g = Return (res, g') →
  n >= 1 ∧ 1 ≤ turns res ≤ 4 * n + 1.
Proof.
  intros (s & _ & Hn & Hturn & ->)%play_game_result. cbn. lia.
Qed.

(** X3: without players a game returns nothing, whatever the shuffle: it
    raises on its first pass, [ZeroDivisionError] for no player and
    another exception, from a subscript or from [index], for a negative
    number of players. *)
Theorem no_players_no_game fuel n g :
  n ≤ 0 → (0 < fuel)%nat →
  ∃ e, play_game shuffle fuel n g = Raise e ∧
       (n = 0 → e = ZeroDivisionError) ∧
       (n < 0 → e = IndexError ∨ e = ValueError).
Proof.
  intros Hn Hfuel. destruct fuel as [|fuel]; [lia|].
  unfold play_game. cbn [play_loop]. unfold turn_step, Py.mod_.
  destruct (decide (n = 0)) as [->|Hne].
  { exists ZeroDivisionError. cbn. split; [done|]. split; [done|lia]. }
  cbn.
  assert (positions (replenish shuffle (init_state shuffle n g)) = []) as Hpos.
  { rewrite replenish_positions. unfold init_state, Py.repeat.
    destruct (create_deck shuffle g). cbn.
    by replace (Z.to_nat n) with 0%nat by lia. }
  destruct (getitem_cases (deck (replenish shuffle (init_state shuffle n g)))
              (deck_index (replenish shuffle (init_state shuffle n g))))
    as [[card ->]| ->]; cbn.
  2: { exists IndexError. split; [done|]. split; [lia|by left]. }
  destruct (index_cases COLORS card) as [[c ->]| ->]; cbn.
  2: { exists ValueError. split; [done|]. split; [lia|by right]. }
  rewrite Hpos, getitem_nil. cbn.
  exists IndexError. split; [done|]. split; [lia|by left].
Qed.

(** X4: at every pass of a game that raises nothing, the game goes on
    exactly when the color index of the card is ahead of the moving player
    and is not the last, [p < c <= 4].  So a Red and a Violet always end
    the game, and so does any card for a player on space 4. *)
Theorem game_goes_on_iff n g s r card c p :
  reachable shuffle n g s →
  turn_step shuffle n s = Return r →
  Py.getitem (deck (replenish shuffle s)) (deck_index (replenish shuffle s)) = Return card →
  Py.index COLORS card = Return c →
  Py.getitem (positions s) (turn s `mod` n) = Return p →
  ((∃ s', r = Continue s') ↔ p < c ≤ 4) ∧
  (card = "Red" ∨ card = "Violet" ∨ p = 4 →
     r = Done (mkResult (turn s `mod` n) (turn s + 1)) (after r)).
Proof.
  intros (_ & Hpos & _)%reachable_board_inv Hstep Hcard Hc Hp.
  apply turn_step_Return in Hstep
    as (card0 & c0 & p0 & ps & Hn & Hcard0 & Hc0 & Hp0 & Hps & ->).
  rewrite Hcard in Hcard0. injection Hcard0 as <-.
  rewrite Hc in Hc0. injection Hc0 as <-.
  rewrite Hp in Hp0. injection Hp0 as <-.
  apply getitem_Return in Hp as (j & _ & Hp).
  pose proof (Forall_lookup_1 _ _ _ _ Hpos Hp) as Hp4. cbn in Hp4.
  pose proof (index_COLORS _ _ Hc) as [Hc5 _].
  assert (landing c p < BOARD_SIZE - 1 ↔ p < c ≤ 4) as Hland.
  { change BOARD_SIZE with 6.
    destruct (landing_cases c p) as [[? ->]|(? & -> & ?)]; lia. }
  cbv zeta. destruct (Z.geb_spec (landing c p) (BOARD_SIZE - 1)) as [Hge|Hlt].
  - split; [|done]. split.
    + by intros (s' & ?).
    + intros ?%Hland. lia.
  - split; [split; [intros _; by apply Hland|eauto]|].
    apply Hland in Hlt. intros [-> | [-> | ->]].
    + vm_compute in Hc. injection Hc as <-. lia.
    + vm_compute in Hc. injection Hc as <-. lia.
    + lia.
Qed.

(** X5: when a game returns, the winner stands on a space from 5 to 10
    and every other player on a space from 0 to 4. *)
Theorem final_board n g s res sf :
  reachable shuffle n g s →
  turn_step shuffle n s = Return (Done res sf) →
  length (positions sf) = Z.to_nat n ∧
  ∃ pw,
    positions sf !! Z.to_nat (winner res) = Some pw ∧ 5 ≤ pw ≤ 10 ∧
    ∀ j q, j ≠ Z.to_nat (winner res) → positions sf !! j = Some q → 0 ≤ q ≤ 4.
Proof.
  intros Hs Hstep.
  pose proof (step_has_players _ _ _ _ Hs Hstep) as Hn.
  pose proof (reachable_board_inv _ _ _ _ Hs) as (Hlen & Hpos & _).
  apply turn_step_Done in Hstep
    as (card & c & p & ps & _ & _ & Hc & Hp & Hps & Hwin & -> & ->).
  cbn. pose proof (Z.mod_pos_bound (turn s) n ltac:(lia)) as Hcp.
  apply getitem_nonneg in Hp; [|lia].
  apply setitem_Return in Hps as (j & Hj & ->).
  rewrite norm_index_nonneg in Hj by (apply lookup_lt_Some in Hp; lia).
  injection Hj as <-.
  pose proof (Forall_lookup_1 _ _ _ _ Hpos Hp) as Hp4. cbn in Hp4.
  apply index_COLORS in Hc as [Hc _]. change BOARD_SIZE with 6 in Hwin.
  rewrite length_insert. split; [done|].
  exists (landing c p). split; [|split].
  - apply list_lookup_insert_eq. by eapply lookup_lt_Some.
  - destruct (landing_cases c p) as [[? Hl]|(? & Hl & ?)]; [lia|..];
      rewrite Hl in *; lia.
  - intros j q Hne Hq. rewrite list_lookup_insert_ne in Hq by done.
    apply (Forall_lookup_1 _ _ _ _ Hpos Hq).
Qed.

End Outcome.

(** ** Games of one turn *)

Section OneTurn.

Context {RNG : Type}.
Variable shuffle : list string → RNG → list string * RNG.

Implicit Types (s : @state RNG) (n : Z) (g : RNG) (fuel : nat).

Lemma reachable_turn_0 n g s :
  reachable shuffle n g s → turn s = 0 → s = init_state shuffle n g.
Proof.
  intros Hs H0. destruct Hs as [|s0 s' Hs0 Hstep]; [done|].
  apply reachable_board_inv in Hs0 as (_ & _ & Hturn).
  apply turn_step_Continue in Hstep
    as (card & c & p & ps & _ & _ & _ & _ & _ & _ & ->).
  cbn in H0. lia.
Qed.

(** X14: a game with players is over after one turn exactly when the
    first card of its deck is a Red or a Violet; player 0 wins it, and the
    random source is as the one deck left it. *)
Theorem one_turn_game fuel n g card d g' :
  n >= 1 → (0 < fuel)%nat →
  create_deck shuffle g = (card :: d, g') →
  (card = "Red" ∨ card = "Violet" ↔
   play_game shuffle fuel n g = Return (mkResult 0 1, g')) ∧
  (∀ res g'', play_game shuffle fuel n g = Return (res, g'') →
     turns res = 1 → res = mkResult 0 1 ∧ g'' = g').
Proof.
  intros Hn Hfuel Hdeck.
  set (s0 := init_state shuffle n g).
  assert (s0 = mkState (Py.repeat 0 n) (card :: d) 0 0 g') as Hs0.
  { unfold s0, init_state. by rewrite Hdeck. }
  assert (replenish shuffle s0 = s0) as Hrep.
  { apply replenish_stocked. rewrite Hs0. cbn. lia. }
  assert (Py.getitem (deck s0) (deck_index s0) = Return card) as Hcard.
  { rewrite Hs0. cbn. by apply getitem_nonneg. }
  assert (turn s0 `mod` n = 0) as Hcp by (rewrite Hs0; cbn; by apply Z.mod_0_l; lia).
  assert (Py.getitem (positions s0) 0 = Return 0) as Hp.
  { apply getitem_nonneg; [done|]. rewrite Hs0. cbn. unfold Py.repeat.
    apply lookup_replicate_2. lia. }
  assert (∀ res sf, turn_step shuffle n s0 = Return (Done res sf) →
            (card = "Red" ∨ card = "Violet") ∧ res = mkResult 0 1 ∧ rng sf = g')
    as Hdone.
  { intros res sf (card0 & c & p & ps & _ & Hcard0 & Hc & Hp0 & _ & Hwin & -> & ->)
      %turn_step_Done.
    rewrite Hrep, Hcard in Hcard0. injection Hcard0 as <-.
    rewrite Hcp, Hp in Hp0. injection Hp0 as <-.
    rewrite Hrep, Hcp. split; [|split; [by rewrite Hs0|by rewrite Hs0]].
    apply index_Return in Hc as (Hc0 & Hlook & _).
    pose proof (lookup_lt_Some _ _ _ Hlook) as Hc5. cbn in Hc5.
    change BOARD_SIZE with 6 in Hwin.
    destruct (landing_cases c 0) as [[? Hl]|(? & Hl & ?)]; [lia|..];
      rewrite Hl in Hwin.
    - right. replace (Z.to_nat c) with 5%nat in Hlook by lia.
      by injection Hlook as <-.
    - left. replace (Z.to_nat c) with 0%nat in Hlook by lia.
      by injection Hlook as <-. }
  assert (∀ res g'', play_game shuffle fuel n g = Return (res, g'') →
            turns res = 1 →
            (card = "Red" ∨ card = "Violet") ∧ res = mkResult 0 1 ∧ g'' = g')
    as Hone.
  { intros res g'' Hgame Hturns.
    destruct (play_loop_last_done shuffle fuel n g _ res g'' (reachable_init _ _ _) Hgame)
      as (s & sf & Hs & Hstep & ->).
    assert (turn s = 0) as H0.
    { apply turn_step_Done in Hstep
        as (? & ? & ? & ? & _ & _ & _ & _ & _ & _ & -> & _). cbn in Hturns. lia. }
    rewrite (reachable_turn_0 _ _ _ Hs H0) in Hstep. by apply Hdone. }
  split; [split|].
  - intros Hcolor. destruct fuel as [|fuel]; [lia|].
    unfold play_game. fold s0. cbn [play_loop].
    assert (∃ c, Py.index COLORS card = Return c ∧ BOARD_SIZE - 1 ≤ landing c 0)
      as (c & Hc & Hwin).
    { destruct Hcolor as [-> | ->]; [exists 0|exists 5]; by vm_compute. }
    assert (turn_step shuffle n s0
            = Return (Done (mkResult 0 1)
                (mkState (<[0%nat:=landing c 0]> (positions s0)) (deck s0)
                   (deck_index s0 + 1) (turn s0) (rng s0)))) as ->.
    { apply turn_step_Done. exists card, c, 0, (<[0%nat:=landing c 0]> (positions s0)).
      rewrite Hrep, Hcp. split; [lia|]. do 3 (split; [done|]).
      split; [|split; [done|split; [by rewrite Hs0|done]]].
      apply setitem_Return. exists 0%nat. split; [|done].
      apply (norm_index_nonneg _ 0). rewrite Hs0. cbn. unfold Py.repeat.
      rewrite length_replicate. lia. }
    cbn. by rewrite Hs0.
  - intros Hgame. by destruct (Hone _ _ Hgame eq_refl) as [? _].
  - intros res g'' Hgame Hturns. by destruct (Hone _ _ Hgame Hturns) as (_ & ? & ?).
Qed.

End OneTurn.

(** ** What a batch returns *)

Section Batch.

Context {RNG : Type}.
Variable shuffle : list string → RNG → list string * RNG.

Implicit Types (s : @state RNG) (n : Z) (g : RNG) (fuel : nat).

(** What [run_simulations] returns, read off the games it played. *)
Lemma run_simulations_Return fuel ns np g stats g' :
  run_simulations shuffle fuel ns np g = Return (stats, g') ↔
  ∃ rs,
    play_games shuffle fuel (Z.to_nat ns) np g = Return (rs, g') ∧
    rs ≠ [] ∧
    Py.min (turns <$> rs) = Return (min_turns stats) ∧
    Py.max (turns <$> rs) = Return (max_turns stats) ∧
    wins_per_player stats = foldl tally ∅ rs ∧
    avg_turns stats = mean (turns <$> rs).
Proof.
  unfold run_simulations. rewrite simulate_play_games.
  destruct (play_games shuffle fuel (Z.to_nat ns) np g) as [[rs g1]| |];
    cbn [mbind outcome_bind].
  2,3: split; [done|by intros (? & ? & _)].
  rewrite app_nil_l. cbn [mret outcome_ret mbind outcome_bind].
  set (ts := turns <$> rs).
  assert ((Qc_of_Z (Py.sum ts) / Qc_of_Z (Z.of_nat (length ts)))%Qc = mean ts) as Hmean.
  { unfold mean. by rewrite sum_foldr. }
  unfold Py.truediv. destruct rs as [|r rs].
  { rewrite decide_True by done. cbn [mbind outcome_bind].
    split; [done|]. by intros (? & [= <- <-] & ? & _). }
  rewrite decide_False by (subst ts; cbn; lia). cbn [mbind outcome_bind].
  assert (∃ lo, Py.min ts = Return lo) as [lo Hlo] by (subst ts; cbn; eauto).
  assert (∃ hi, Py.max ts = Return hi) as [hi Hhi] by (subst ts; cbn; eauto).
  rewrite Hlo, Hhi, Hmean. cbn [mbind outcome_bind mret outcome_ret]. split.
  - intros [= <- <-]. exists (r :: rs). by cbn.
  - intros (rs' & [= <- <-] & _ & Hmin & Hmax & Hwins & Havg).
    destruct stats as [w a l h].
    cbn [min_turns max_turns wins_per_player avg_turns] in Hmin, Hmax, Hwins, Havg.
    fold ts in Hmin, Hmax, Havg.
    rewrite Hlo in Hmin. rewrite Hhi in Hmax. by simplify_eq.
Qed.

(** The results of the games of a batch, whatever the shuffle. *)
Lemma play_games_results fuel k np g rs g' :
  play_games shuffle fuel k np g = Return (rs, g') →
  length rs = k ∧
  Forall (λ r, 0 ≤ winner r < np ∧ 1 ≤ turns r ≤ 4 * np + 1) rs.
Proof.
  revert g rs. induction k as [|k IH]; intros g rs; cbn.
  { by intros [= <- <-]. }
  destruct (play_game shuffle fuel np g) as [[r g1]| |] eqn:Hr; cbn; [|done..].
  destruct (play_games shuffle fuel k np g1) as [[rs1 g2]| |] eqn:Hrs; cbn; [|done..].
  intros [= <- <-]. destruct (IH _ _ Hrs) as [Hlen Hall].
  split; [cbn; lia|]. constructor; [|done].
  apply play_game_result in Hr as (s & _ & Hn & Hturn & ->). cbn.
  pose proof (Z.mod_pos_bound (turn s) np ltac:(lia)). lia.
Qed.

(** X6: a batch that returns was asked for at least one simulation of
    at least one player, and its extremes are turn counts a game can have:
    [1 <= min_turns <= max_turns <= 4 * num_players + 1], with the mean
    between the two, whatever the shuffle. *)
Theorem stats_in_range fuel ns np g stats g' :
  run_simulations shuffle fuel ns np g = Return (stats, g') →
  ns >= 1 ∧ np >= 1 ∧
  1 ≤ min_turns stats ∧ min_turns stats ≤ max_turns stats ∧
  max_turns stats ≤ 4 * np + 1 ∧
  (Qc_of_Z 1 ≤ avg_turns stats)%Qc ∧
  (avg_turns stats ≤ Qc_of_Z (4 * np + 1))%Qc.
Proof.
  intros (rs & Hrs & Hne & Hmin & Hmax & _ & Havg)%run_simulations_Return.
  apply play_games_results in Hrs as [Hlen Hall].
  assert (ns >= 1) as Hns by (destruct rs; [done|cbn in Hlen; lia]).
  apply min_spec in Hmin as [Hmin_in Hmin_all].
  apply max_spec in Hmax as [Hmax_in Hmax_all].
  assert (Forall (λ t, 1 ≤ t ≤ 4 * np + 1) (turns <$> rs)) as Hts.
  { apply Forall_fmap. eapply Forall_impl; [|exact Hall]. cbn. tauto. }
  rewrite list.Forall_forall in Hts, Hmin_all, Hmax_all.
  pose proof (Hts _ Hmin_in). pose proof (Hts _ Hmax_in).
  pose proof (Hmin_all _ Hmax_in).
  assert (np >= 1) as Hnp.
  { destruct rs as [|r rs]; [done|]. inversion Hall; subst. lia. }
  do 5 (split; [lia|]).
  assert (0 < Z.of_nat (length (turns <$> rs))) as Hpos
    by (rewrite length_fmap; lia).
  rewrite Havg. unfold mean. rewrite <- sum_foldr. split.
  - apply Qc_le_div; [done|].
    etrans; [|apply (sum_ge_bound 1)]; [lia|].
    apply list.Forall_forall. intros t Ht. specialize (Hts t Ht). lia.
  - apply Qc_div_le; [done|].
    apply sum_le_bound. apply list.Forall_forall. intros t Ht.
    specialize (Hts t Ht). lia.
Qed.

(** X7: in the statistics a batch returns every key of
    [wins_per_player] is the index of a player, and every count is at least
    1 and at most [num_simulations]: a player without a win has no entry,
    and no entry is for a player that does not exist. *)
Theorem wins_entries_valid fuel ns np g stats g' w c :
  run_simulations shuffle fuel ns np g = Return (stats, g') →
  wins_per_player stats !! w = Some c →
  0 ≤ w < np ∧ 1 ≤ c ≤ ns.
Proof.
  intros (rs & Hrs & Hne & _ & _ & Hwins & _)%run_simulations_Return Hw.
  apply play_games_results in Hrs as [Hlen Hall].
  rewrite Hwins in Hw.
  destruct (lookup_foldl_tally ∅ rs w) as [Hcount Hnone].
  rewrite Hw, lookup_empty in Hcount. cbn in Hcount.
  assert (wins_of w rs ≠ 0%nat) as Hwon.
  { intros H0. destruct Hnone as [_ Hnone].
    rewrite Hnone in Hw by (by rewrite lookup_empty). done. }
  assert (wins_of w rs ≤ length rs)%nat as Hle by apply length_filter.
  split; [|lia].
  unfold wins_of in Hwon.
  destruct (filter (λ r, winner r = w) rs) as [|r l] eqn:Hf; [done|].
  assert (r ∈ filter (λ r, winner r = w) rs) as Hin by (rewrite Hf; by left).
  apply list_elem_of_filter in Hin as [<- Hin].
  rewrite list.Forall_forall in Hall. by apply Hall.
Qed.

End Batch.

Section BatchDecks.

Context {RNG : Type}.
Variable shuffle : list string → RNG → list string * RNG.
Hypothesis shuffle_perm : shuffle_permutes shuffle.

Implicit Types (s : @state RNG) (n : Z) (g : RNG) (fuel : nat).

Lemma reachable_rng n g s :
  reachable shuffle n g s → rng s = (create_deck shuffle g).2.
Proof.
  pose proof (shuffle_permutes_keeps_length shuffle shuffle_perm) as Hkeep.
  induction 1 as [|s s' Hs IH Hstep].
  - unfold init_state. by destruct (create_deck shuffle g).
  - pose proof (reachable_deck_inv shuffle Hkeep _ _ _ Hs) as [Hlen _].
    apply (reachable_first_deck shuffle shuffle_perm) in Hs as [(_ & Hidx & _) H8].
    apply turn_step_Continue in Hstep
      as (card & c & p & ps & _ & _ & _ & _ & _ & _ & ->).
    cbn. by rewrite replenish_stocked by lia.
Qed.

(** A game makes one deck, and no game lasts more than nine turns. *)
Lemma play_game_one_deck fuel n g res g' :
  play_game shuffle fuel n g = Return (res, g') →
  g' = (create_deck shuffle g).2 ∧ turns res ≤ 9.
Proof.
  pose proof (shuffle_permutes_keeps_length shuffle shuffle_perm) as Hkeep.
  intros Hgame.
  destruct (play_loop_last_done shuffle fuel n g _ res g' (reachable_init _ _ _) Hgame)
    as (s & sf & Hs & Hstep & ->).
  pose proof (reachable_rng _ _ _ Hs) as Hrng.
  pose proof (reachable_deck_inv shuffle Hkeep _ _ _ Hs) as [Hlen _].
  apply (reachable_first_deck shuffle shuffle_perm) in Hs as [(_ & Hidx & _) H8].
  apply turn_step_Done in Hstep
    as (card & c & p & ps & _ & _ & _ & _ & _ & _ & -> & ->).
  cbn. rewrite replenish_stocked by lia. split; [done|lia].
Qed.

Lemma play_games_one_deck_each fuel k np g rs g' :
  play_games shuffle fuel k np g = Return (rs, g') →
  g' = decks_drawn shuffle k g ∧ Forall (λ r, turns r ≤ 9) rs.
Proof.
  revert g rs. induction k as [|k IH]; intros g rs; cbn.
  { by intros [= <- <-]. }
  destruct (play_game shuffle fuel np g) as [[r g1]| |] eqn:Hr; cbn; [|done..].
  destruct (play_games shuffle fuel k np g1) as [[rs1 g2]| |] eqn:Hrs; cbn; [|done..].
  intros [= <- <-]. destruct (IH _ _ Hrs) as [-> Hall].
  apply play_game_one_deck in Hr as [-> Ht]. split; [|by constructor].
  unfold decks_drawn.
  exact (eq_sym (Nat.iter_succ_r k (λ g, (create_deck shuffle g).2) g)).
Qed.

(** X8: with a shuffle that rearranges its deck, a batch makes exactly
    one deck for each simulation, so that the random source it returns is
    the one after [num_simulations] shuffles, and no game of it has more
    than nine turns: [max_turns <= 9]. *)
Theorem batch_one_deck_per_game fuel ns np g stats g' :
  run_simulations shuffle fuel ns np g = Return (stats, g') →
  g' = decks_drawn shuffle (Z.to_nat ns) g ∧
  max_turns stats ≤ 9 ∧
  (avg_turns stats ≤ Qc_of_Z 9)%Qc.
Proof.
  intros (rs & Hrs & Hne & _ & Hmax & _ & Havg)%run_simulations_Return.
  apply play_games_one_deck_each in Hrs as [-> Hall].
  split; [done|].
  assert (Forall (λ t, t ≤ 9) (turns <$> rs)) as Hts by by apply Forall_fmap.
  apply max_spec in Hmax as [Hmax_in _]. split.
  - rewrite list.Forall_forall in Hts. by apply Hts.
  - rewrite Havg. unfold mean. rewrite <- sum_foldr.
    apply Qc_div_le; [|by apply sum_le_bound].
    rewrite length_fmap. destruct rs; [done|cbn; lia].
Qed.

End BatchDecks.

(** ** The report *)

Lemma sum_append l k : Py.sum (l ++ k) = Py.sum l + Py.sum k.
Proof.
  induction l as [|x l IH].
  - rewrite app_nil_l. change (Py.sum []) with 0. lia.
  - rewrite <- app_comm_cons, !sum_cons, IH. lia.
Qed.

Lemma sum_fmap_add {A} (f h : A → Z) (l : list A) :
  Py.sum ((λ p, f p + h p) <$> l) = Py.sum (f <$> l) + Py.sum (h <$> l).
Proof.
  induction l as [|x l IH]; [done|]. rewrite !fmap_cons, !sum_cons, IH. lia.
Qed.

Lemma sum_fmap_zero {A} (l : list A) : Py.sum ((λ _, 0) <$> l) = 0.
Proof. induction l as [|x l IH]; [done|]. by rewrite fmap_cons, sum_cons, IH. Qed.

(** A player is counted once among the players. *)
Lemma sum_indicator (l : list Z) i :
  NoDup l →
  Py.sum ((λ p, if decide (i = p) then 1 else 0) <$> l)
    = if decide (i ∈ l) then 1 else 0.
Proof.
  induction 1 as [|x l Hx _ IH]; [done|].
  rewrite fmap_cons, sum_cons, IH.
  destruct (decide (i = x)) as [->|Hne].
  - rewrite decide_False by done. rewrite decide_True by (by left). lia.
  - destruct (decide (i ∈ l)) as [Hin|Hnin].
    + rewrite decide_True by (by right). lia.
    + rewrite decide_False; [lia|]. by intros [?|?]%elem_of_cons.
Qed.

(** Over the players the games won add up to the games played. *)
Lemma wins_of_players np rs :
  Forall (λ r, 0 ≤ winner r < np) rs →
  Py.sum ((λ p, Z.of_nat (wins_of p rs)) <$> seqZ 0 np) = Z.of_nat (length rs).
Proof.
  induction 1 as [|r rs Hr _ IH].
  - unfold wins_of. cbn. apply sum_fmap_zero.
  - rewrite <- (list_fmap_ext
      (λ p, (if decide (winner r = p) then 1 else 0) + Z.of_nat (wins_of p rs))).
    2: { intros _ p _. rewrite wins_of_cons. case_decide; lia. }
    rewrite sum_fmap_add, IH, sum_indicator by apply NoDup_seqZ.
    rewrite decide_True by (apply elem_of_seqZ; lia). cbn [length]. lia.
Qed.

Lemma rates_total (f : Z → Z) (q : Qc) (l : list Z) :
  foldr Qcplus (Q2Qc 0) ((λ p, Qc_of_Z (f p) / q * Qc_of_Z 100)%Qc <$> l)
    = (Qc_of_Z (Py.sum (f <$> l)) / q * Qc_of_Z 100)%Qc.
Proof.
  induction l as [|x l IH].
  - rewrite !fmap_nil. change (Py.sum []) with 0. rewrite Z2Qc_inj_0.
    cbn [foldr]. unfold Qcdiv. ring.
  - rewrite !fmap_cons, sum_cons, Z2Qc_inj_add. cbn [foldr]. rewrite IH.
    unfold Qcdiv. ring.
Qed.

Section Report.

Implicit Types (stats : SimulationStats) (ns np : Z).

Lemma print_rows_ok stats ns players out :
  ns ≠ 0 →
  print_rows stats ns players out
    = (out ++ (player_line stats ns <$> players), Return ()).
Proof.
  intros Hns. revert out. induction players as [|p players IH]; intros out.
  - cbn. by rewrite app_nil_r.
  - cbn [print_rows]. unfold Py.truediv. rewrite decide_False by done.
    rewrite IH, <- app_assoc. done.
Qed.

Lemma print_statistics_ok stats ns np :
  ns ≠ 0 →
  print_statistics stats ns np
    = (heading stats ns np ++ (player_line stats ns <$> seqZ 0 np)
         ++ [Text (rule +:+ newline)], Return ()).
Proof.
  intros Hns. unfold print_statistics. rewrite print_rows_ok by done.
  by rewrite <- app_assoc.
Qed.


(** X10: with [num_simulations = 0] and at least one player,
    [print_statistics] writes the heading and then raises
    [ZeroDivisionError] on the rate of the first player: no line of a
    player and no closing rule is written.  Without players the division
    is not reached, and heading and closing rule are written whatever
    [num_simulations] is. *)
Theorem report_without_simulations stats ns np :
  (ns = 0 → np >= 1 →
     print_statistics stats ns np = (heading stats ns np, Raise ZeroDivisionError)) ∧
  (np ≤ 0 →
     print_statistics stats ns np
       = (heading stats ns np ++ [Text (rule +:+ newline)], Return ())).
Proof.
  split.
  - intros -> Hnp. unfold print_statistics.
    rewrite seqZ_cons by lia. cbn [print_rows]. unfold Py.truediv.
    by rewrite decide_True by done.
  - intros Hnp. unfold print_statistics. by rewrite seqZ_nil by done.
Qed.

End Report.

Section ReportOfBatch.

Context {RNG : Type}.
Variable shuffle : list string → RNG → list string * RNG.

(** The lines of the players of a batch add up to the batch. *)
Lemma batch_rows_total fuel ns np (g : RNG) stats g' :
  run_simulations shuffle fuel ns np g = Return (stats, g') →
  ns >= 1 ∧
  Py.sum ((λ p, default 0 (wins_per_player stats !! p)) <$> seqZ 0 np) = ns.
Proof.
  intros (rs & Hrs & Hne & _ & _ & Hwins & _)%run_simulations_Return.
  apply play_games_results in Hrs as [Hlen Hall].
  assert (ns >= 1) as Hns by (destruct rs; [done|cbn in Hlen; lia]).
  split; [done|].
  rewrite (list_fmap_ext _ (λ p, Z.of_nat (wins_of p rs))).
  2: { intros _ p _. rewrite Hwins.
       rewrite (proj1 (lookup_foldl_tally ∅ rs p)), lookup_empty. cbn. lia. }
  rewrite wins_of_players; [lia|].
  eapply Forall_impl; [|exact Hall]. cbn. tauto.
Qed.

Lemma report_totals stats ns np :
  ns ≠ 0 →
  Py.sum ((λ p, default 0 (wins_per_player stats !! p)) <$> seqZ 0 np) = ns →
  let lines := heading stats ns np ++ (player_line stats ns <$> seqZ 0 np)
                 ++ [Text (rule +:+ newline)] in
  Py.sum (line_wins <$> lines) = ns ∧
  foldr Qcplus (Q2Qc 0) (line_rate <$> lines) = Qc_of_Z 100.
Proof.
  intros Hns Hsum lines. subst lines. rewrite !fmap_app, <- !list_fmap_compose.
  split.
  - rewrite !sum_append.
    change (Py.sum (line_wins <$> heading stats ns np)) with 0.
    change (Py.sum (line_wins <$> [Text (rule +:+ newline)])) with 0.
    assert (Py.sum (line_wins ∘ player_line stats ns <$> seqZ 0 np) = ns) as ->
      by exact Hsum.
    lia.
  - rewrite !foldr_app. cbn [fmap list_fmap foldr heading line_rate].
    rewrite !Qcplus_0_l.
    etrans; [exact (rates_total (λ p, default 0 (wins_per_player stats !! p))
                      (Qc_of_Z ns) (seqZ 0 np))|].
    rewrite Hsum. unfold Qcdiv. rewrite Qcmult_inv_r, Qcmult_1_l; [done|].
    intros H0. rewrite <- Z2Qc_inj_0 in H0. by apply Z2Qc_inj in H0.
Qed.

(** X11: the report of a batch, printed with the arguments the batch
    was run with, raises nothing, and the wins of its player lines add up
    to [num_simulations] and the rates to 100 percent: every game is
    counted for a player that is shown. *)
Theorem report_of_batch fuel ns np (g : RNG) stats g' :
  run_simulations shuffle fuel ns np g = Return (stats, g') →
  ∃ lines,
    print_statistics stats ns np = (lines, Return ()) ∧
    length lines = (10 + Z.to_nat np)%nat ∧
    Py.sum (line_wins <$> lines) = ns ∧
    foldr Qcplus (Q2Qc 0) (line_rate <$> lines) = Qc_of_Z 100.
Proof.
  intros [Hns Hsum]%batch_rows_total.
  eexists. split; [apply print_statistics_ok; lia|].
  split.
  { rewrite !length_app, length_fmap, length_seqZ. cbn. lia. }
  apply report_totals; [lia|done].
Qed.

(** X12: with a shuffle that rearranges its deck and fuel for nine
    turns a game, the entry point raises nothing: it writes twelve lines,
    those of players 1 and 2 among them, whose wins add up to the 1000
    simulations and whose rates add up to 100 percent. *)
Theorem main_reports fuel (g : RNG) :
  shuffle_permutes shuffle →
  (9 ≤ fuel)%nat →
  ∃ lines w1 w2 r1 r2,
    main shuffle fuel g = (lines, Return ()) ∧
    length lines = 12%nat ∧
    lines !! 9%nat = Some (PlayerLine 1 w1 r1) ∧
    lines !! 10%nat = Some (PlayerLine 2 w2 r2) ∧
    w1 + w2 = 1000 ∧ (r1 + r2)%Qc = Qc_of_Z 100.
Proof.
  intros Hperm Hfuel. unfold main.
  destruct (play_games_returns shuffle fuel (Z.to_nat NUM_SIMULATIONS) NUM_PLAYERS g)
    as (rs & g' & Hrs & Hlen & _); [done|done|done|].
  destruct (run_simulations shuffle fuel NUM_SIMULATIONS NUM_PLAYERS g)
    as [[stats g1]| |] eqn:Hrun.
  2,3: unfold run_simulations in Hrun; rewrite simulate_play_games, Hrs in Hrun;
       destruct rs as [|r rs]; [done|]; cbn in Hrun;
       unfold Py.truediv in Hrun; rewrite decide_False in Hrun by lia; done.
  apply batch_rows_total in Hrun as [_ Hsum].
  rewrite print_statistics_ok by done.
  destruct (report_totals stats NUM_SIMULATIONS NUM_PLAYERS ltac:(done) Hsum)
    as [_ Hrates].
  change (seqZ 0 NUM_PLAYERS) with [0; 1] in *.
  cbn [fmap list_fmap] in Hsum.
  eexists _, _, _, _, _. split; [done|]. split; [done|].
  split; [done|]. split; [done|]. split.
  - unfold Py.sum in Hsum. cbn in Hsum. exact Hsum.
  - rewrite !fmap_app, !foldr_app in Hrates.
    cbn [fmap list_fmap foldr heading line_rate player_line] in Hrates.
    rewrite !Qcplus_0_l, !Qcplus_0_r in Hrates. exact Hrates.
Qed.

End ReportOfBatch.

(** * The properties on the sample games *)

Lemma green_yellow_first_pass :
  turn_step Rigged.shuffle 1 green_yellow_start = Return (Continue green_yellow_second).
Proof. vm_compute. reflexivity. Defined.

Lemma green_yellow_second_pass :
  turn_step Rigged.shuffle 1 green_yellow_second = Return green_yellow_end.
Proof. vm_compute. reflexivity. Defined.

Lemma green_yellow_second_reachable :
  reachable Rigged.shuffle 1 green_yellow_stack green_yellow_second.
Proof.
  eapply reachable_step; [apply reachable_init|]. exact green_yellow_first_pass.
Defined.

(** C1 on the first pass of the Green and Yellow game: Green, index 3, is
    ahead of position 0. *)
Lemma move_rule_witness :
  turn_step Rigged.shuffle 1 green_yellow_start = Return (Continue green_yellow_second) ∧
  ∃ card c p,
    Py.getitem (deck (replenish Rigged.shuffle green_yellow_start))
               (deck_index (replenish Rigged.shuffle green_yellow_start)) = Return card ∧
    Py.index COLORS card = Return c ∧
    Py.getitem (positions green_yellow_start) (turn green_yellow_start `mod` 1) = Return p ∧
    (c > p → Py.getitem (positions (after (Continue green_yellow_second)))
                        (turn green_yellow_start `mod` 1) = Return c) ∧
    (c ≤ p → Py.getitem (positions (after (Continue green_yellow_second)))
                        (turn green_yellow_start `mod` 1) = Return (c + BOARD_SIZE)) ∧
    BOARD_SIZE = 6 ∧
    Py.setitem (positions green_yellow_start) (turn green_yellow_start `mod` 1)
               (if decide (c > p) then c else c + 6)
      = Return (positions (after (Continue green_yellow_second))).
Proof.
  split; [exact green_yellow_first_pass|].
  apply (move_rule Rigged.shuffle 1 green_yellow_start (Continue green_yellow_second)).
  vm_compute. reflexivity.
Defined.

(** C2 on the second pass: Yellow takes the player to 8. *)
Lemma win_check_witness :
  turn_step Rigged.shuffle 1 green_yellow_second = Return green_yellow_end ∧
  Py.getitem (positions (after green_yellow_end)) (turn green_yellow_second `mod` 1)
    = Return 8 ∧
  8 >= BOARD_SIZE - 1 ∧
  BOARD_SIZE - 1 = 5 ∧
  green_yellow_end
    = Done (mkResult (turn green_yellow_second `mod` 1) (turn green_yellow_second + 1))
           (after green_yellow_end) ∧
  ∀ fuel, play_loop Rigged.shuffle (S fuel) 1 green_yellow_second
          = Return (mkResult (turn green_yellow_second `mod` 1)
                             (turn green_yellow_second + 1),
                    rng (after green_yellow_end)).
Proof.
  assert (turn_step Rigged.shuffle 1 green_yellow_second = Return green_yellow_end)
    as H1 by (vm_compute; reflexivity).
  assert (Py.getitem (positions (after green_yellow_end))
            (turn green_yellow_second `mod` 1) = Return 8)
    as H2 by (vm_compute; reflexivity).
  assert (8 >= BOARD_SIZE - 1) as H3 by (vm_compute; discriminate).
  do 3 (split; [assumption|]).
  exact (win_check Rigged.shuffle 1 green_yellow_second green_yellow_end 8 H1 H2 H3).
Defined.

(** C3, amended, on the rigged stack. *)
Lemma green_yellow_scenario_witness :
  create_deck Rigged.shuffle green_yellow_stack
    = ("Green" :: "Yellow" :: take 10 (COLORS ++ COLORS), []) ∧
  (2 ≤ 2)%nat ∧
  Py.index COLORS "Green" = Return 3 ∧
  Py.index COLORS "Yellow" = Return 2 ∧
  positions (init_state Rigged.shuffle 1 green_yellow_stack) = [0] ∧
  ∃ s1 sf,
    turn_step Rigged.shuffle 1 (init_state Rigged.shuffle 1 green_yellow_stack)
      = Return (Continue s1) ∧
    positions s1 = [3] ∧
    turn_step Rigged.shuffle 1 s1 = Return (Done (mkResult 0 2) sf) ∧
    positions sf = [8] ∧
    play_game Rigged.shuffle 2 1 green_yellow_stack = Return (mkResult 0 2, []).
Proof.
  assert (create_deck Rigged.shuffle green_yellow_stack
          = ("Green" :: "Yellow" :: take 10 (COLORS ++ COLORS), [])) as H1
    by (vm_compute; reflexivity).
  assert (2 ≤ 2)%nat as H2 by lia.
  do 2 (split; [assumption|]).
  exact (green_yellow_scenario Rigged.shuffle green_yellow_stack [] _ 2 H1 H2).
Defined.

(** C4 on a game of two players with the real shuffle. *)
Lemma play_game_terminates_witness :
  shuffle_permutes (@Random.shuffle string) ∧
  2 >= 1 ∧
  ∃ res g',
    (∀ fuel, (Z.to_nat (4 * 2 + 1) ≤ fuel)%nat →
             play_game Random.shuffle fuel 2 sample_tape = Return (res, g')) ∧
    (∀ fuel x, play_game Random.shuffle fuel 2 sample_tape = x →
               x = Return (res, g') ∨ x = OutOfFuel) ∧
    0 ≤ winner res < 2 ∧
    turns res >= 1.
Proof.
  assert (2 >= 1) as H by lia.
  split; [exact random_shuffle_permutes|]. split; [assumption|].
  exact (play_game_terminates Random.shuffle 2 sample_tape random_shuffle_permutes H).
Defined.

(** C6 on the second pass: from 3 to 8. *)
Lemma position_increases_witness :
  reachable Rigged.shuffle 1 green_yellow_stack green_yellow_second ∧
  turn_step Rigged.shuffle 1 green_yellow_second = Return green_yellow_end ∧
  Py.getitem (positions green_yellow_second) (turn green_yellow_second `mod` 1)
    = Return 3 ∧
  Py.getitem (positions (after green_yellow_end)) (turn green_yellow_second `mod` 1)
    = Return 8 ∧
  3 ≤ 4 ∧ 3 < 8.
Proof.
  assert (Py.getitem (positions green_yellow_second) (turn green_yellow_second `mod` 1)
          = Return 3) as H3 by (vm_compute; reflexivity).
  assert (Py.getitem (positions (after green_yellow_end))
            (turn green_yellow_second `mod` 1) = Return 8)
    as H4 by (vm_compute; reflexivity).
  split; [exact green_yellow_second_reachable|].
  split; [exact green_yellow_second_pass|].
  do 2 (split; [assumption|]).
  exact (position_increases Rigged.shuffle 1 green_yellow_stack green_yellow_second
           green_yellow_end 3 8 green_yellow_second_reachable green_yellow_second_pass
           H3 H4).
Defined.

(** C7 on a deck of the real shuffle. *)
Lemma create_deck_composition_witness :
  shuffle_permutes (@Random.shuffle string) ∧
  length (create_deck Random.shuffle sample_tape).1 = 12%nat ∧
  (create_deck Random.shuffle sample_tape).1 ≡ₚ COLORS ++ COLORS ∧
  (∀ card, card ∈ COLORS → count card (create_deck Random.shuffle sample_tape).1 = 2%nat) ∧
  (∀ card, card ∉ COLORS → count card (create_deck Random.shuffle sample_tape).1 = 0%nat).
Proof.
  split; [exact random_shuffle_permutes|].
  exact (create_deck_composition Random.shuffle sample_tape random_shuffle_permutes).
Defined.

(** C5 on a batch of three games of two players with the real shuffle. *)
Lemma aggregation_witness :
  shuffle_permutes (@Random.shuffle string) ∧
  3 >= 1 ∧
  2 >= 1 ∧
  (Z.to_nat (4 * 2 + 1) ≤ 9)%nat ∧
  ∃ stats results g',
    run_simulations Random.shuffle 9 3 2 sample_tape = Return (stats, g') ∧
    play_games Random.shuffle 9 (Z.to_nat 3) 2 sample_tape = Return (results, g') ∧
    Z.of_nat (length results) = 3 ∧
    total (wins_per_player stats) = 3 ∧
    (∀ w, default 0 (wins_per_player stats !! w) = Z.of_nat (wins_of w results)) ∧
    (∀ w, wins_per_player stats !! w = None ↔ wins_of w results = 0%nat) ∧
    avg_turns stats = mean (turns <$> results) ∧
    (Qc_of_Z (min_turns stats) ≤ avg_turns stats)%Qc ∧
    (avg_turns stats ≤ Qc_of_Z (max_turns stats))%Qc ∧
    min_turns stats ∈ turns <$> results ∧
    max_turns stats ∈ turns <$> results ∧
    Forall (λ t, min_turns stats ≤ t ≤ max_turns stats) (turns <$> results).
Proof.
  assert (3 >= 1) as H1 by lia.
  assert (2 >= 1) as H2 by lia.
  assert (Z.to_nat (4 * 2 + 1) ≤ 9)%nat as H3 by (vm_compute; lia).
  split; [exact random_shuffle_permutes|]. do 3 (split; [assumption|]).
  exact (aggregation Random.shuffle 9 3 2 sample_tape random_shuffle_permutes H1 H2 H3).
Defined.

(** C8 on the long stack: three players, thirteen turns, and the pass of
    turn 12 replaces the deck and draws the first card of the new one. *)
Lemma deck_replenishment_witness :
  shuffle_keeps_length Rigged.shuffle ∧
  play_game Rigged.shuffle 13 3 long_stack = Return (mkResult 0 13, []) ∧
  13 > 12 ∧
  ∃ s, reachable Rigged.shuffle 3 long_stack s ∧ turn s = 12 ∧
       deck_index s >= Z.of_nat (length (deck s)) ∧
       deck (replenish Rigged.shuffle s) = (create_deck Rigged.shuffle (rng s)).1 ∧
       rng (replenish Rigged.shuffle s) = (create_deck Rigged.shuffle (rng s)).2 ∧
       length (deck (replenish Rigged.shuffle s)) = 12%nat ∧
       deck_index (replenish Rigged.shuffle s) = 0 ∧
       ∃ card,
         Py.getitem (deck (replenish Rigged.shuffle s))
                    (deck_index (replenish Rigged.shuffle s)) = Return card.
Proof.
  assert (play_game Rigged.shuffle 13 3 long_stack = Return (mkResult 0 13, []))
    as H1 by (vm_compute; reflexivity).
  assert (13 > 12) as H2 by lia.
  split; [exact rigged_shuffle_keeps_length|]. do 2 (split; [assumption|]).
  destruct (deck_replenishment Rigged.shuffle rigged_shuffle_keeps_length 3 long_stack)
    as [Hpass Hlong].
  destruct (Hlong 13%nat (mkResult 0 13) [] H1 H2) as (s & Hs & Hturn & Hex & Hdeck & Hidx).
  destruct (Hpass s Hs) as (Hfresh & _ & _ & Hcard).
  destruct (Hfresh Hex) as (_ & Hrng & Hlen & _).
  exists s. repeat (split; [assumption|]). exact Hcard.
Defined.

(** C9, amended, on a batch of three games and minus one players. *)
Lemma invalid_configuration_witness :
  shuffle_permutes (@Random.shuffle string) ∧
  (0 < 5)%nat ∧
  (3 ≤ 0 ∨ -1 ≤ 0) ∧
  run_simulations Random.shuffle 5 3 (-1) sample_tape =
    Raise (if decide (1 ≤ 3 ∧ -1 < 0) then IndexError else ZeroDivisionError) ∧
  (3 ≤ 0 →
     simulate Random.shuffle 5 (Z.to_nat 3) (-1) ∅ [] sample_tape
       = Return (∅, [], sample_tape)).
Proof.
  assert (0 < 5)%nat as H1 by lia.
  assert (3 ≤ 0 ∨ -1 ≤ 0) as H2 by (right; lia).
  split; [exact random_shuffle_permutes|]. do 2 (split; [assumption|]).
  exact (invalid_configuration Random.shuffle 5 3 (-1) sample_tape
           random_shuffle_permutes H1 H2).
Defined.

(** C10 on the second pass of the Green and Yellow game: Yellow, index 2,
    is behind position 3. *)
Lemma wrap_wins_witness :
  reachable Rigged.shuffle 1 green_yellow_stack green_yellow_second ∧
  Forall (λ p, p < BOARD_SIZE - 1) (positions green_yellow_second) ∧
  turn_step Rigged.shuffle 1 green_yellow_second = Return green_yellow_end ∧
  Py.getitem (deck (replenish Rigged.shuffle green_yellow_second))
             (deck_index (replenish Rigged.shuffle green_yellow_second))
    = Return "Yellow" ∧
  Py.index COLORS "Yellow" = Return 2 ∧
  Py.getitem (positions green_yellow_second) (turn green_yellow_second `mod` 1)
    = Return 3 ∧
  2 ≤ 3 ∧
  Py.getitem (positions (after green_yellow_end)) (turn green_yellow_second `mod` 1)
    = Return (2 + 6) ∧
  6 ≤ 2 + 6 ∧ BOARD_SIZE - 1 = 5 ∧
  green_yellow_end
    = Done (mkResult (turn green_yellow_second `mod` 1) (turn green_yellow_second + 1))
           (after green_yellow_end) ∧
  ∀ fuel, play_loop Rigged.shuffle (S fuel) 1 green_yellow_second
          = Return (mkResult (turn green_yellow_second `mod` 1)
                             (turn green_yellow_second + 1),
                    rng (after green_yellow_end)).
Proof.
  assert (Py.getitem (deck (replenish Rigged.shuffle green_yellow_second))
            (deck_index (replenish Rigged.shuffle green_yellow_second))
          = Return "Yellow") as H2 by (vm_compute; reflexivity).
  assert (Py.index COLORS "Yellow" = Return 2) as H3 by (vm_compute; reflexivity).
  assert (Py.getitem (positions green_yellow_second) (turn green_yellow_second `mod` 1)
          = Return 3) as H4 by (vm_compute; reflexivity).
  assert (2 ≤ 3) as H5 by lia.
  destruct (wrap_wins Rigged.shuffle 1 green_yellow_stack green_yellow_second
              green_yellow_second_reachable) as [Hall Hwrap].
  split; [exact green_yellow_second_reachable|]. split; [exact Hall|].
  split; [exact green_yellow_second_pass|]. do 4 (split; [assumption|]).
  exact (Hwrap green_yellow_end "Yellow" 2 3 green_yellow_second_pass H2 H3 H4 H5).
Defined.

(** X1 and X2 on the long stack: thirteen turns of three players, the
    most three players can take, and player 12 mod 3 wins. *)
Lemma winner_is_last_to_move_witness :
  play_game Rigged.shuffle 13 3 long_stack = Return (mkResult 0 13, []) ∧
  winner (mkResult 0 13) = (turns (mkResult 0 13) - 1) `mod` 3 ∧
  0 ≤ winner (mkResult 0 13) < 3 ∧
  winner (mkResult 0 13) < turns (mkResult 0 13).
Proof.
  assert (play_game Rigged.shuffle 13 3 long_stack = Return (mkResult 0 13, []))
    as H by (vm_compute; reflexivity).
  split; [assumption|].
  exact (winner_is_last_to_move Rigged.shuffle 13 3 long_stack (mkResult 0 13) [] H).
Defined.

Lemma turns_bounded_witness :
  play_game Rigged.shuffle 13 3 long_stack = Return (mkResult 0 13, []) ∧
  3 >= 1 ∧ 1 ≤ turns (mkResult 0 13) ≤ 4 * 3 + 1.
Proof.
  assert (play_game Rigged.shuffle 13 3 long_stack = Return (mkResult 0 13, []))
    as H by (vm_compute; reflexivity).
  split; [assumption|].
  exact (turns_bounded Rigged.shuffle 13 3 long_stack (mkResult 0 13) [] H).
Defined.

(** X3 on a game of minus two players. *)
Lemma no_players_no_game_witness :
  -2 ≤ 0 ∧ (0 < 5)%nat ∧
  ∃ e, play_game Random.shuffle 5 (-2) sample_tape = Raise e ∧
       (-2 = 0 → e = ZeroDivisionError) ∧
       (-2 < 0 → e = IndexError ∨ e = ValueError).
Proof.
  assert (-2 ≤ 0) as H1 by lia.
  assert (0 < 5)%nat as H2 by lia.
  do 2 (split; [assumption|]).
  exact (no_players_no_game Random.shuffle 5 (-2) sample_tape H1 H2).
Defined.

(** X4 on the first pass of the Green and Yellow game: from 0 a Green,
    index 3, goes on. *)
Lemma game_goes_on_iff_witness :
  reachable Rigged.shuffle 1 green_yellow_stack green_yellow_start ∧
  turn_step Rigged.shuffle 1 green_yellow_start = Return (Continue green_yellow_second) ∧
  Py.getitem (deck (replenish Rigged.shuffle green_yellow_start))
             (deck_index (replenish Rigged.shuffle green_yellow_start))
    = Return "Green" ∧
  Py.index COLORS "Green" = Return 3 ∧
  Py.getitem (positions green_yellow_start) (turn green_yellow_start `mod` 1)
    = Return 0 ∧
  ((∃ s', Continue green_yellow_second = Continue s') ↔ 0 < 3 ≤ 4) ∧
  ("Green" = "Red" ∨ "Green" = "Violet" ∨ 0 = 4 →
     Continue green_yellow_second
       = Done (mkResult (turn green_yellow_start `mod` 1) (turn green_yellow_start + 1))
              (after (Continue green_yellow_second))).
Proof.
  assert (reachable Rigged.shuffle 1 green_yellow_stack green_yellow_start)
    as H1 by apply reachable_init.
  assert (Py.getitem (deck (replenish Rigged.shuffle green_yellow_start))
            (deck_index (replenish Rigged.shuffle green_yellow_start))
          = Return "Green") as H3 by (vm_compute; reflexivity).
  assert (Py.index COLORS "Green" = Return 3) as H4 by (vm_compute; reflexivity).
  assert (Py.getitem (positions green_yellow_start) (turn green_yellow_start `mod` 1)
          = Return 0) as H5 by (vm_compute; reflexivity).
  split; [assumption|]. split; [exact green_yellow_first_pass|].
  do 3 (split; [assumption|]).
  exact (game_goes_on_iff Rigged.shuffle 1 green_yellow_stack green_yellow_start
           (Continue green_yellow_second) "Green" 3 0
           H1 green_yellow_first_pass H3 H4 H5).
Defined.

(** X5 on the end of the Green and Yellow game: the winner on 8. *)
Lemma final_board_witness :
  reachable Rigged.shuffle 1 green_yellow_stack green_yellow_second ∧
  turn_step Rigged.shuffle 1 green_yellow_second
    = Return (Done (mkResult 0 2) (after green_yellow_end)) ∧
  length (positions (after green_yellow_end)) = Z.to_nat 1 ∧
  ∃ pw,
    positions (after green_yellow_end) !! Z.to_nat (winner (mkResult 0 2)) = Some pw ∧
    5 ≤ pw ≤ 10 ∧
    ∀ j q, j ≠ Z.to_nat (winner (mkResult 0 2)) →
           positions (after green_yellow_end) !! j = Some q → 0 ≤ q ≤ 4.
Proof.
  split; [exact green_yellow_second_reachable|].
  split; [exact green_yellow_second_pass|].
  exact (final_board Rigged.shuffle 1 green_yellow_stack green_yellow_second
           (mkResult 0 2) (after green_yellow_end)
           green_yellow_second_reachable green_yellow_second_pass).
Defined.

(** X6, X7, X8 and X11 on a batch of three games of two players. *)
Lemma stats_in_range_witness :
  ∃ stats g',
    run_simulations Random.shuffle 9 3 2 sample_tape = Return (stats, g') ∧
    3 >= 1 ∧ 2 >= 1 ∧
    1 ≤ min_turns stats ∧ min_turns stats ≤ max_turns stats ∧
    max_turns stats ≤ 4 * 2 + 1 ∧
    (Qc_of_Z 1 ≤ avg_turns stats)%Qc ∧
    (avg_turns stats ≤ Qc_of_Z (4 * 2 + 1))%Qc.
Proof.
  destruct (run_simulations Random.shuffle 9 3 2 sample_tape) as [[stats g']| |] eqn:H.
  - exists stats, g'. split; [reflexivity|].
    exact (stats_in_range Random.shuffle 9 3 2 sample_tape stats g' H).
  - vm_compute in H. discriminate H.
  - vm_compute in H. discriminate H.
Defined.

Lemma wins_entries_valid_witness :
  ∃ stats g' w c,
    run_simulations Random.shuffle 9 3 2 sample_tape = Return (stats, g') ∧
    wins_per_player stats !! w = Some c ∧
    0 ≤ w < 2 ∧ 1 ≤ c ≤ 3.
Proof.
  destruct (run_simulations Random.shuffle 9 3 2 sample_tape) as [[stats g']| |] eqn:H.
  2,3: vm_compute in H; discriminate H.
  assert (∃ w c, wins_per_player stats !! w = Some c) as (w & c & Hw).
  { destruct (wins_per_player stats !! 0) as [c|] eqn:H0; [by eauto|].
    destruct (wins_per_player stats !! 1) as [c|] eqn:H1; [by eauto|].
    exfalso. vm_compute in H. injection H as <- <-.
    vm_compute in H0. vm_compute in H1. congruence. }
  exists stats, g', w, c. split; [reflexivity|]. split; [exact Hw|].
  exact (wins_entries_valid Random.shuffle 9 3 2 sample_tape stats g' w c H Hw).
Defined.

Lemma batch_one_deck_per_game_witness :
  shuffle_permutes (@Random.shuffle string) ∧
  ∃ stats g',
    run_simulations Random.shuffle 9 3 2 sample_tape = Return (stats, g') ∧
    g' = decks_drawn Random.shuffle (Z.to_nat 3) sample_tape ∧
    max_turns stats ≤ 9 ∧
    (avg_turns stats ≤ Qc_of_Z 9)%Qc.
Proof.
  split; [exact random_shuffle_permutes|].
  destruct (run_simulations Random.shuffle 9 3 2 sample_tape) as [[stats g']| |] eqn:H.
  - exists stats, g'. split; [reflexivity|].
    exact (batch_one_deck_per_game Random.shuffle random_shuffle_permutes
             9 3 2 sample_tape stats g' H).
  - vm_compute in H. discriminate H.
  - vm_compute in H. discriminate H.
Defined.

Lemma report_of_batch_witness :
  ∃ stats g',
    run_simulations Random.shuffle 9 3 2 sample_tape = Return (stats, g') ∧
    ∃ lines,
      print_statistics stats 3 2 = (lines, Return ()) ∧
      length lines = (10 + Z.to_nat 2)%nat ∧
      Py.sum (line_wins <$> lines) = 3 ∧
      foldr Qcplus (Q2Qc 0) (line_rate <$> lines) = Qc_of_Z 100.
Proof.
  destruct (run_simulations Random.shuffle 9 3 2 sample_tape) as [[stats g']| |] eqn:H.
  - exists stats, g'. split; [reflexivity|].
    exact (report_of_batch Random.shuffle 9 3 2 sample_tape stats g' H).
  - vm_compute in H. discriminate H.
  - vm_compute in H. discriminate H.
Defined.


(** X10 on the sample statistics: no simulation and two players, and
    three simulations and no player. *)
Lemma report_without_simulations_witness :
  print_statistics sample_stats 0 2
    = (heading sample_stats 0 2, Raise ZeroDivisionError) ∧
  print_statistics sample_stats 3 0
    = (heading sample_stats 3 0 ++ [Text (rule +:+ newline)], Return ()).
Proof.
  split.
  - apply (proj1 (report_without_simulations sample_stats 0 2)); [reflexivity|lia].
  - apply (proj2 (report_without_simulations sample_stats 3 0)). lia.
Defined.

(** X12 on the real shuffle. *)
Lemma main_reports_witness :
  shuffle_permutes (@Random.shuffle string) ∧
  (9 ≤ 9)%nat ∧
  ∃ lines w1 w2 r1 r2,
    main Random.shuffle 9 sample_tape = (lines, Return ()) ∧
    length lines = 12%nat ∧
    lines !! 9%nat = Some (PlayerLine 1 w1 r1) ∧
    lines !! 10%nat = Some (PlayerLine 2 w2 r2) ∧
    w1 + w2 = 1000 ∧ (r1 + r2)%Qc = Qc_of_Z 100.
Proof.
  assert (9 ≤ 9)%nat as H by lia.
  split; [exact random_shuffle_permutes|]. split; [assumption|].
  exact (main_reports Random.shuffle 9 sample_tape random_shuffle_permutes H).
Defined.

(** X13 on a game of two players with the real shuffle. *)
Lemma game_ends_on_first_deck_witness :
  shuffle_permutes (@Random.shuffle string) ∧
  play_game Random.shuffle 9 2 sample_tape = Return (mkResult 0 1, []) ∧
  turns (mkResult 0 1) ≤ 9 ∧
  ∀ s, reachable Random.shuffle 2 sample_tape s →
       deck_index s < Z.of_nat (length (deck s)).
Proof.
  assert (play_game Random.shuffle 9 2 sample_tape = Return (mkResult 0 1, []))
    as H by (vm_compute; reflexivity).
  split; [exact random_shuffle_permutes|]. split; [assumption|].
  exact (game_ends_on_first_deck Random.shuffle random_shuffle_permutes
           9 2 sample_tape (mkResult 0 1) [] H).
Defined.

(** X14 on the same game: its deck starts with a Red. *)
Lemma one_turn_game_witness :
  2 >= 1 ∧ (0 < 9)%nat ∧
  create_deck Random.shuffle sample_tape
    = ("Red" :: tail (create_deck Random.shuffle sample_tape).1, []) ∧
  ("Red" = "Red" ∨ "Red" = "Violet" ↔
   play_game Random.shuffle 9 2 sample_tape = Return (mkResult 0 1, [])) ∧
  (∀ res g'', play_game Random.shuffle 9 2 sample_tape = Return (res, g'') →
     turns res = 1 → res = mkResult 0 1 ∧ g'' = []).
Proof.
  assert (2 >= 1) as H1 by lia.
  assert (0 < 9)%nat as H2 by lia.
  assert (create_deck Random.shuffle sample_tape
          = ("Red" :: tail (create_deck Random.shuffle sample_tape).1, [])) as H3
    by (vm_compute; reflexivity).
  do 3 (split; [assumption|]).
  exact (one_turn_game Random.shuffle 9 2 sample_tape "Red" _ [] H1 H2 H3).
Defined.
